(** * zubax_chibios: the bootloader checksum and the system halt path

    A shallow embedding of [bootloader/util.hpp] (error codes and the
    CRC-64-WE accumulator) and of [sys/sys.cpp] (the halt hook, the
    assertion handler and the allocation guard), with the properties of
    the specification stated over them.

    Unsigned machine integers are numbers with the wrap-around written
    out; bytes are [Byte.byte]; C strings are [string], a nullable
    [const char*] is an [option string]. *)

From Stdlib Require Import ZArith NArith List String Ascii Lia Bool.
From Stdlib.Strings Require Import Byte.
From Stdlib Require Import DecimalString HexadecimalString.
From Stdlib Require HexadecimalFacts HexadecimalPos HexadecimalN.
From ITree Require Import ITree ITreeFacts.
From ITree Require Import Props.Leaf.

Import ListNotations.
Import ITreeNotations.

(* ================================================================== *)
(** * bootloader/util.hpp *)
(* ================================================================== *)

Module Bootloader.

Local Open Scope Z_scope.

(** ** Error codes *)

Definition ErrOK : Z := 0.
Definition ErrInvalidState : Z := 10001.
Definition ErrAppImageTooLarge : Z := 10002.
Definition ErrAppStorageWriteFailure : Z := 10003.

(** ** std::uint64_t arithmetic *)

Definition uint64_max : Z := 0xFFFFFFFFFFFFFFFF.

(** Conversion to [std::uint64_t]: reduction modulo 2^64. *)
Definition wrap64 (x : Z) : Z := Z.land x uint64_max.

(** [x << n] on [std::uint64_t]. *)
Definition shl64 (x : Z) (n : Z) : Z := wrap64 (Z.shiftl x n).

(** [std::uint64_t(byte)] *)
Definition uint64_of_byte (b : byte) : Z := Z.of_N (Byte.to_N b).

(** ** class CRC64WE *)

Definition Poly : Z := 0x42F0E1EBA9EA3693.
Definition Mask : Z := shl64 1 63.

(** One line of the unrolled body:
    [crc_ = (crc_ & Mask) ? (crc_ << 1) ^ Poly : crc_ << 1;] *)
Definition shift_step (crc : Z) : Z :=
  if negb (Z.land crc Mask =? 0) then Z.lxor (shl64 crc 1) Poly else shl64 crc 1.

Record CRC64WE : Type := mkCRC64WE { crc_ : Z }.

(** The default member initialiser [crc_ = 0xFFFFFFFFFFFFFFFFULL]. *)
Definition fresh : CRC64WE := {| crc_ := 0xFFFFFFFFFFFFFFFF |}.

(** [void add(std::uint8_t byte)] *)
Definition add (self : CRC64WE) (b : byte) : CRC64WE :=
  let crc := Z.lxor (crc_ self) (shl64 (uint64_of_byte b) 56) in
  let crc := shift_step crc in
  let crc := shift_step crc in
  let crc := shift_step crc in
  let crc := shift_step crc in
  let crc := shift_step crc in
  let crc := shift_step crc in
  let crc := shift_step crc in
  let crc := shift_step crc in
  {| crc_ := crc |}.

(** The accumulator after [add(byte)] for each byte of [data] in order. *)
Definition add_all (self : CRC64WE) (data : list byte) : CRC64WE :=
  fold_left add data self.

(** [std::uint64_t get() const] *)
Definition get (self : CRC64WE) : Z := Z.lxor (crc_ self) 0xFFFFFFFFFFFFFFFF.

(** What a call that may trip an [assert] or read invalid memory does. *)
Inductive outcome (A : Type) : Type :=
| Done (a : A)
| AssertionFailed (expr : string)
| Undefined.
Arguments Done {A} a.
Arguments AssertionFailed {A} expr.
Arguments Undefined {A}.

(** A [const void*] handed to [add]: either [nullptr], or the address of
    a byte of some object, of which [readable] lists the bytes from that
    address to the end of the object.  [bytes++] drops the head. *)
Inductive pointer : Type :=
| nullptr
| ptr_to (readable : list byte).

(** The loop [while (len --> 0)] of [add], which feeds the byte under
    [bytes] to [add] and advances [bytes]; [n] is the value of [len].
    Reading past the end of the object is undefined behaviour. *)
Fixpoint add_loop (n : nat) (bytes : list byte) (self : CRC64WE) : outcome CRC64WE :=
  match n with
  | O => Done self
  | S n' =>
      match bytes with
      | [] => Undefined
      | b :: rest => add_loop n' rest (add self b)
      end
  end.

Section WithAssertions.

(** Whether the translation unit is compiled with [NDEBUG], which turns
    [assert] into nothing. *)
Variable NDEBUG : bool.

(** [void add(const void* data, unsigned len)] *)
Definition add_buffer (self : CRC64WE) (data : pointer) (len : N) : outcome CRC64WE :=
  match data with
  | nullptr =>
      if NDEBUG
      then (* the loop dereferences the null pointer as soon as it runs *)
        if (len =? 0)%N then Done self else Undefined
      else AssertionFailed "bytes != nullptr"
  | ptr_to bytes => add_loop (N.to_nat len) bytes self
  end.

(** A call on the accumulator. *)
Inductive call : Type :=
| call_add (b : byte)
| call_add_buffer (data : pointer) (len : N).

Definition do_call (self : CRC64WE) (c : call) : outcome CRC64WE :=
  match c with
  | call_add b => Done (add self b)
  | call_add_buffer data len => add_buffer self data len
  end.

(** A sequence of calls on one accumulator; the first failure ends it. *)
Fixpoint do_calls (self : CRC64WE) (cs : list call) : outcome CRC64WE :=
  match cs with
  | [] => Done self
  | c :: cs' =>
      match do_call self c with
      | Done self' => do_calls self' cs'
      | AssertionFailed e => AssertionFailed e
      | Undefined => Undefined
      end
  end.

End WithAssertions.

(** The bytes a call feeds when its buffer is valid for [len] bytes. *)
Definition fed (c : call) : list byte :=
  match c with
  | call_add b => [b]
  | call_add_buffer nullptr _ => []
  | call_add_buffer (ptr_to bytes) len => firstn (N.to_nat len) bytes
  end.

(** A call within the contract of [add]: the buffer is a non-null
    pointer to at least [len] readable bytes. *)
Definition in_contract (c : call) : Prop :=
  match c with
  | call_add _ => True
  | call_add_buffer nullptr _ => False
  | call_add_buffer (ptr_to bytes) len => (N.to_nat len <= List.length bytes)%nat
  end.

(** [cs] is a way of feeding [data]: in-contract calls whose bytes, in
    order, are [data]. *)
Definition splits (cs : list call) (data : list byte) : Prop :=
  Forall in_contract cs /\ List.concat (List.map fed cs) = data.

(** The whole of [data] in one [add(buffer, length)] call. *)
Definition whole (data : list byte) : call :=
  call_add_buffer (ptr_to data) (N.of_nat (List.length data)).

(** ** The per-byte update in the words of the documentation *)

(** One round: shift left by one; if the bit shifted out of the top was
    1, XOR the polynomial into the result. *)
Definition reference_round (reg : Z) : Z :=
  let shifted_out := Z.testbit reg 63 in
  let shifted := (2 * reg) mod 2 ^ 64 in
  if shifted_out then Z.lxor shifted 0x42F0E1EBA9EA3693 else shifted.

(** XOR the byte into the top 8 bits of the register, then 8 rounds. *)
Definition reference_update (reg : Z) (b : byte) : Z :=
  Nat.iter 8 reference_round (Z.lxor reg (Z.of_N (Byte.to_N b) * 2 ^ 56)).

(** A 64-bit register state. *)
Definition is_uint64 (x : Z) : Prop := 0 <= x < 2 ^ 64.

Definition check_input : list byte := list_byte_of_string "123456789".

End Bootloader.

(* ================================================================== *)
(** * sys/sys.cpp *)
(* ================================================================== *)

Module Sys.

Local Open Scope N_scope.
Local Open Scope string_scope.
Local Open Scope itree_scope.

(** ** The build: the preprocessor symbols the file tests *)

Record build : Type := {
  (** [NDEBUG]: [assert] expands to nothing. *)
  NDEBUG : bool;
  CH_CFG_USE_REGISTRY : bool;
  (** [AGGRESSIVE_SIZE_OPTIMIZATION] defined and not 0. *)
  AGGRESSIVE_SIZE_OPTIMIZATION : bool;
  (** [DEBUG_BUILD] defined and not 0. *)
  DEBUG_BUILD : bool;
  CORTEX_M : N;
  (** [None] when the macro is not defined. *)
  CoreDebug_DHCSR_C_DEBUGEN_Msk : option N;
  (** [__FILE__] *)
  FILE : string;
  (** What [assert] passes as the name of the enclosing function, given
      its plain name: [__PRETTY_FUNCTION__], [__func__], or a null
      pointer where the compiler has neither. *)
  ASSERT_FUNC : string -> option string
}.

(** ** The machine: what the readers of the environment return *)

Record thread_t : Type := { name : option string }.

Inductive core_register : Type :=
| CONTROL | IPSR | APSR | xPSR | PRIMASK | BASEPRI | FAULTMASK | FPSCR.

Inductive scb_register : Type :=
| AIRCR | SCR | CCR | SHCSR | CFSR | HFSR | DFSR | MMFAR | BFAR | AFSR.

Record machine : Type := {
  (** [None] is a null [thread_t*]. *)
  chThdGetSelfX : option thread_t;
  (** [__get_CONTROL()], [__get_IPSR()], ... *)
  __get : core_register -> N;
  __get_PSP : N;
  __get_MSP : N;
  (** [SCB->AIRCR], ... *)
  SCB : scb_register -> N;
  (** The 32-bit word stored at an address. *)
  load32 : N -> N;
  CoreDebug_DHCSR : N
}.

(** The text [#name] of the register macros. *)
Definition core_register_name (r : core_register) : string :=
  match r with
  | CONTROL => "CONTROL" | IPSR => "IPSR" | APSR => "APSR" | xPSR => "xPSR"
  | PRIMASK => "PRIMASK" | BASEPRI => "BASEPRI" | FAULTMASK => "FAULTMASK"
  | FPSCR => "FPSCR"
  end.

Definition scb_register_name (r : scb_register) : string :=
  match r with
  | AIRCR => "AIRCR" | SCR => "SCR" | CCR => "CCR" | SHCSR => "SHCSR"
  | CFSR => "CFSR" | HFSR => "HFSR" | DFSR => "DFSR" | MMFAR => "MMFAR"
  | BFAR => "BFAR" | AFSR => "AFSR"
  end.

(** ** Effects *)

(** What the code does to its environment.  [EmergencyPrint] carries the
    [const char*] it is called with: [None] is a null pointer. *)
Variant action : Type :=
| ApplicationHaltHook
| PortDisable
| EmergencyPrint (str : option string)
| Breakpoint.

Variant sysE : Type -> Type :=
| Perform (a : action) : sysE unit.

(** The weak [os::applicationHaltHook], which the application may
    replace. *)
Definition applicationHaltHook : itree sysE unit := ITree.trigger (Perform ApplicationHaltHook).
Definition port_disable : itree sysE unit := ITree.trigger (Perform PortDisable).
Definition emergencyPrint (str : option string) : itree sysE unit :=
  ITree.trigger (Perform (EmergencyPrint str)).
(** [__asm volatile ("bkpt #0\n")] *)
Definition bkpt : itree sysE unit := ITree.trigger (Perform Breakpoint).

(** [while (true) { }] *)
Definition while_true {R : Type} : itree sysE R :=
  ITree.iter (fun _ : unit => Ret (inl tt)) tt.

(** ** Text *)

Definition CR : ascii := ascii_of_nat 13.
Definition LF : ascii := ascii_of_nat 10.
Definition TAB : ascii := ascii_of_nat 9.
(** ["\r\n"] *)
Definition CRLF : string := String CR (String LF EmptyString).

Fixpoint zeros (n : nat) : string :=
  match n with
  | O => EmptyString
  | S n' => String "0" (zeros n')
  end.

(** The conversion [%08x]: lower-case hexadecimal, padded with zeros on
    the left to 8 characters. *)
Definition format_08x (value : N) : string :=
  let digits := HexadecimalString.NilZero.string_of_uint (N.to_hex_uint value) in
  zeros (8 - String.length digits) ++ digits.

(** The conversion [%d]. *)
Definition format_d (value : Z) : string :=
  DecimalString.NilZero.string_of_int (Z.to_int value).

(** What [chsnprintf] leaves in a buffer of [size] characters when the
    formatted text is [text]: at most [size - 1] characters of it. *)
Definition chsnprintf (size : nat) (text : string) : string :=
  substring 0 (size - 1) text.

(** ** zchSysHaltHook *)

Section Reporter.

Variable b : build.
Variable m : machine.

(** The lambda [print_register]. *)
Definition print_register (name : string) (value : N) : itree sysE unit :=
  emergencyPrint (Some name);;
  emergencyPrint (Some (String TAB EmptyString));;
  let buffer := chsnprintf 20 (format_08x value) in
  emergencyPrint (Some buffer);;
  emergencyPrint (Some CRLF).

(** The lambda [print_stack]; [ptr[i]] is the word at [ptr + 4 * i]. *)
Definition print_stack (ptr : N) : itree sysE unit :=
  print_register "Pointer" ptr;;
  print_register "R0" (load32 m (ptr + 4 * 0));;
  print_register "R1" (load32 m (ptr + 4 * 1));;
  print_register "R2" (load32 m (ptr + 4 * 2));;
  print_register "R3" (load32 m (ptr + 4 * 3));;
  print_register "R12" (load32 m (ptr + 4 * 4));;
  print_register "R14[LR]" (load32 m (ptr + 4 * 5));;
  print_register "R15[PC]" (load32 m (ptr + 4 * 6));;
  print_register "PSR" (load32 m (ptr + 4 * 7)).

Definition PRINT_CORE_REGISTER (r : core_register) : itree sysE unit :=
  print_register (core_register_name r) (__get m r).

Definition PRINT_SCB_REGISTER (r : scb_register) : itree sysE unit :=
  print_register (scb_register_name r) (SCB m r).

(** The part of the hook under
    [#if !defined(AGGRESSIVE_SIZE_OPTIMIZATION) || (AGGRESSIVE_SIZE_OPTIMIZATION == 0)]. *)
Definition print_registers : itree sysE unit :=
  emergencyPrint (Some (CRLF ++ "Core registers:" ++ CRLF));;
  PRINT_CORE_REGISTER CONTROL;;
  PRINT_CORE_REGISTER IPSR;;
  PRINT_CORE_REGISTER APSR;;
  PRINT_CORE_REGISTER xPSR;;
  PRINT_CORE_REGISTER PRIMASK;;
  (if (3 <=? CORTEX_M b)%N
   then PRINT_CORE_REGISTER BASEPRI;; PRINT_CORE_REGISTER FAULTMASK
   else Ret tt);;
  (if (4 <=? CORTEX_M b)%N then PRINT_CORE_REGISTER FPSCR else Ret tt);;
  emergencyPrint (Some (CRLF ++ "Process stack:" ++ CRLF));;
  print_stack (__get_PSP m);;
  emergencyPrint (Some (CRLF ++ "Main stack:" ++ CRLF));;
  print_stack (__get_MSP m);;
  emergencyPrint (Some (CRLF ++ "SCB:" ++ CRLF));;
  PRINT_SCB_REGISTER AIRCR;;
  PRINT_SCB_REGISTER SCR;;
  PRINT_SCB_REGISTER CCR;;
  PRINT_SCB_REGISTER SHCSR;;
  PRINT_SCB_REGISTER CFSR;;
  PRINT_SCB_REGISTER HFSR;;
  PRINT_SCB_REGISTER DFSR;;
  PRINT_SCB_REGISTER MMFAR;;
  PRINT_SCB_REGISTER BFAR;;
  PRINT_SCB_REGISTER AFSR.

(** The breakpoint at the end of the hook, compiled in under
    [DEBUG_BUILD] when the mask is defined. *)
Definition debug_breakpoint : itree sysE unit :=
  match DEBUG_BUILD b, CoreDebug_DHCSR_C_DEBUGEN_Msk b with
  | true, Some msk =>
      if negb (N.land (CoreDebug_DHCSR m) msk =? 0)%N then bkpt else Ret tt
  | _, _ => Ret tt
  end.

(** [void zchSysHaltHook(const char* msg)] *)
Definition zchSysHaltHook (msg : option string) : itree sysE unit :=
  applicationHaltHook;;
  port_disable;;
  emergencyPrint (Some (CRLF ++ "PANIC ["));;
  (if CH_CFG_USE_REGISTRY b
   then
     match chThdGetSelfX m with
     | Some pthread =>
         match name pthread with
         | Some _ => emergencyPrint (name pthread)
         | None => Ret tt
         end
     | None => Ret tt
     end
   else Ret tt);;
  emergencyPrint (Some "] ");;
  match msg with
  | Some _ => emergencyPrint msg
  | None => Ret tt
  end;;
  emergencyPrint (Some CRLF);;
  (if negb (AGGRESSIVE_SIZE_OPTIMIZATION b) then print_registers else Ret tt);;
  debug_breakpoint.

End Reporter.

(** ** The handlers and the allocation guard

    They call the kernel's [chSysHalt], which is not part of this file:
    it is a parameter here. *)

Definition null : N := 0.

Section Handlers.

Variable chSysHalt : option string -> itree sysE unit.
Variable b : build.

(** [void _unhandled_exception()] *)
Definition _unhandled_exception : itree sysE unit :=
  chSysHalt (Some "UNDEFINED IRQ").

(** [void __assert_func(const char* file, int line, const char* func, const char* expr)];
    the text is formatted with ["%s:%d:%s:%s"] into a buffer of 200. *)
Definition __assert_func (file : string) (line : Z) (func : option string)
    (expr : string) : itree sysE unit :=
  port_disable;;
  let buffer :=
    chsnprintf 200
      (file ++ ":" ++ format_d line ++ ":"
            ++ match func with None => EmptyString | Some f => f end
            ++ ":" ++ expr) in
  chSysHalt (Some buffer);;
  while_true.

(** [assert(cond)] written on [line] of function [func], [expr] being
    the text of the condition. *)
Definition assert (line : Z) (func : string) (expr : string) (cond : bool)
  : itree sysE unit :=
  if NDEBUG b then Ret tt
  else if cond then Ret tt
  else __assert_func (FILE b) line (ASSERT_FUNC b func) expr.

(** [void* malloc(size_t sz)] *)
Definition malloc (sz : N) : itree sysE N :=
  assert 235 "malloc" "sz == 0" (sz =? 0)%N;;
  Ret null.

(** [void* calloc(size_t num, size_t sz)] *)
Definition calloc (num sz : N) : itree sysE N :=
  assert 243 "calloc" "(num == 0) || (sz == 0)" ((num =? 0)%N || (sz =? 0)%N);;
  Ret null.

(** [void* realloc(void*, size_t sz)] *)
Definition realloc (p : N) (sz : N) : itree sysE N :=
  assert 250 "realloc" "sz == 0" (sz =? 0)%N;;
  Ret null.

(** [void free(void* p)] *)
Definition free (p : N) : itree sysE unit :=
  if negb (p =? null)%N then chSysHalt (Some "free") else Ret tt.

End Handlers.

(** Modelled from the spec: the kernel's [chSysHalt], which is not under
    the sources.  The specification has the halt path run the reporting
    steps 1 to 5, which are the hook above, and then "Enter Halted: loop
    forever, performing no further work". *)
Definition chSysHalt (b : build) (m : machine) (reason : option string)
  : itree sysE unit :=
  zchSysHaltHook b m reason;;
  while_true.

(** ** Running a program *)

(** The actions of [t] in order, and its result if it returns within
    [fuel] steps. *)
Fixpoint run {R : Type} (fuel : nat) (t : itree sysE R) : list action * option R :=
  match fuel with
  | O => ([], None)
  | S fuel' =>
      match observe t with
      | RetF r => ([], Some r)
      | TauF t' => run fuel' t'
      | VisF e k =>
          match e in sysE X return (X -> itree sysE R) -> list action * option R with
          | Perform a => fun k => let (tr, r) := run fuel' (k tt) in (a :: tr, r)
          end k
      end
  end.

(** [t] performs the actions [tr] and returns [r]. *)
Definition returns {R : Type} (t : itree sysE R) (tr : list action) (r : R) : Prop :=
  exists fuel, run fuel t = (tr, Some r).

(** [t] does not return, however long it runs. *)
Definition never_returns {R : Type} (t : itree sysE R) : Prop :=
  forall fuel, snd (run fuel t) = None.

(** [t] performs the actions [tr] and then runs forever without another
    action and without returning. *)
Definition halts_after {R : Type} (t : itree sysE R) (tr : list action) : Prop :=
  exists fuel0, forall fuel, (fuel0 <= fuel)%nat -> run fuel t = (tr, None).

(** The bytes the sink of [emergencyPrint] receives. *)
Fixpoint sink (tr : list action) : string :=
  match tr with
  | [] => EmptyString
  | EmergencyPrint (Some str) :: tr' => str ++ sink tr'
  | _ :: tr' => sink tr'
  end.

(** No call of [emergencyPrint] with a null pointer. *)
Definition no_null_print (tr : list action) : Prop :=
  Forall (fun a => a <> EmergencyPrint None) tr.

(** The name of the running thread, when the build has the registry and
    neither the thread pointer nor its name is null. *)
Definition thread_name (b : build) (m : machine) : option string :=
  if CH_CFG_USE_REGISTRY b
  then match chThdGetSelfX m with Some pthread => name pthread | None => None end
  else None.

Definition text (s : option string) : string :=
  match s with Some str => str | None => EmptyString end.

(** The call [emergencyPrint(s)] under the guard [if (s != NULL)]. *)
Definition prints (s : option string) : list action :=
  match s with Some _ => [EmergencyPrint s] | None => [] end.

(** [t] returns, and passes no null pointer to [emergencyPrint]. *)
Definition prints_safely (t : itree sysE unit) : Prop :=
  exists tr, returns t tr tt /\ no_null_print tr.

(** [t] runs as the assertion handler called from [assert] on [line] of
    [func] does, and does not return. *)
Definition fails_assertion {R : Type} (halt : option string -> itree sysE unit)
    (b : build) (t : itree sysE R) (line : Z) (func expr : string) : Prop :=
  never_returns t /\
  forall fuel,
    fst (run fuel t) =
    fst (run fuel (__assert_func halt (FILE b) line (ASSERT_FUNC b func) expr)).

(** C8 as the specification words it: the sink receives the opening
    delimiter, the name of the running thread if the environment exposes
    one and else a placeholder, the message and the trailing delimiter;
    the "] " that closes the header follows the identity. *)
Definition reports_with_placeholder (b : build) (m : machine) (msg : string) : Prop :=
  exists placeholder : string,
    placeholder <> EmptyString /\
    exists tr rest,
      returns (zchSysHaltHook b m (Some msg)) tr tt /\
      sink tr =
        (CRLF ++ "PANIC [")
          ++ match thread_name b m with Some n => n | None => placeholder end
          ++ "] " ++ msg ++ CRLF ++ rest.

(** A build for small targets: no registry, no register dump, no
    breakpoint. *)
Definition small_build : build :=
  {| NDEBUG := true;
     CH_CFG_USE_REGISTRY := false;
     AGGRESSIVE_SIZE_OPTIMIZATION := true;
     DEBUG_BUILD := false;
     CORTEX_M := 0;
     CoreDebug_DHCSR_C_DEBUGEN_Msk := None;
     FILE := "sys.cpp";
     ASSERT_FUNC := fun f => Some f |}.

(** A debug build for a Cortex-M4 with everything on. *)
Definition debug_build : build :=
  {| NDEBUG := false;
     CH_CFG_USE_REGISTRY := true;
     AGGRESSIVE_SIZE_OPTIMIZATION := false;
     DEBUG_BUILD := true;
     CORTEX_M := 4;
     CoreDebug_DHCSR_C_DEBUGEN_Msk := Some 1;
     FILE := "sys.cpp";
     ASSERT_FUNC := fun f => Some f |}.

(** A machine running the thread "main" with a debugger attached. *)
Definition sample_machine : machine :=
  {| chThdGetSelfX := Some {| name := Some "main" |};
     __get := fun _ => 0;
     __get_PSP := 536870912;
     __get_MSP := 536936448;
     SCB := fun _ => 0;
     load32 := fun a => a;
     CoreDebug_DHCSR := 1 |}.

End Sys.

(* ================================================================== *)
(** * sys/sys.cpp, continued: sleeping and the reboot request *)
(* ================================================================== *)

Module Sched.

Import Bootloader Sys.
Local Open Scope Z_scope.

(** The system timer of the kernel configuration. *)
Record timer : Type := {
  (** Ticks per second. *)
  CH_CFG_ST_FREQUENCY : Z;
  (** Width of [systime_t] in bits. *)
  CH_CFG_ST_RESOLUTION : Z
}.

(** What these functions ask of the kernel and of the log.  [DebugLog]
    stands for [DEBUG_LOG] with the format ["%s: Lag %d ts\n"] and
    carries its two arguments. *)
Variant sched_action : Type :=
| ChSysLock
| ChSysUnlock
| ChThdSleepS (ticks : Z)
| ChThdSleepMicroseconds (usec : Z)
| ChThdSleepSeconds (sec : Z)
| DebugLog (name : option string) (lag : Z).

(** Conversion to [systime_t]. *)
Definition to_systime (t : timer) (x : Z) : Z := x mod 2 ^ CH_CFG_ST_RESOLUTION t.

(** [static_cast<std::make_signed<systime_t>::type>(x)] *)
Definition to_signed_systime (t : timer) (x : Z) : Z :=
  if x <? 2 ^ (CH_CFG_ST_RESOLUTION t - 1) then x else x - 2 ^ CH_CFG_ST_RESOLUTION t.

(** [void sleepUntilChTime(systime_t sleep_until)]; [now] is what
    [chVTGetSystemTimeX()] returns.  Reading the name through a null
    thread pointer is undefined behaviour. *)
Definition sleepUntilChTime (b : build) (t : timer) (m : machine)
    (now : Z) (sleep_until : Z) : outcome (list sched_action) :=
  let sleep_until := to_systime t (sleep_until - now) in
  let locked :=
    [ChSysLock]
      ++ (if 0 <? to_signed_systime t sleep_until then [ChThdSleepS sleep_until] else [])
      ++ [ChSysUnlock] in
  if DEBUG_BUILD b
  then
    if to_signed_systime t sleep_until <? 0
    then
      if CH_CFG_USE_REGISTRY b
      then
        match chThdGetSelfX m with
        | Some pthread =>
            Done (locked ++ [DebugLog (name pthread) (to_signed_systime t sleep_until)])
        | None => Undefined
        end
      else Done (locked ++ [DebugLog (Some "<?>"%string) (to_signed_systime t sleep_until)])
    else Done locked
  else Done locked.

(** The condition asserted by [usleep], in [uint64_t] arithmetic. *)
Definition usleep_fits (t : timer) (useconds : Z) : bool :=
  wrap64 (wrap64 (wrap64 useconds * wrap64 (CH_CFG_ST_FREQUENCY t)) + 999999) / 1000000
  <? shl64 1 (CH_CFG_ST_RESOLUTION t).

(** [int usleep(useconds_t useconds)]: the calls made and the value
    returned. *)
Definition usleep (b : build) (t : timer) (useconds : Z)
  : outcome (list sched_action * Z) :=
  if negb (NDEBUG b) && negb (usleep_fits t useconds)
  then
    AssertionFailed
      "(((uint64_t)useconds * (uint64_t)CH_CFG_ST_FREQUENCY + 999999ULL) / 1000000ULL) < (1ULL << CH_CFG_ST_RESOLUTION)"
  else
    Done (if 0 <? useconds then [ChThdSleepMicroseconds useconds] else [], 0).

(** The condition asserted by [sleep]. *)
Definition sleep_fits (t : timer) (seconds : Z) : bool :=
  wrap64 (wrap64 seconds * wrap64 (CH_CFG_ST_FREQUENCY t))
  <? shl64 1 (CH_CFG_ST_RESOLUTION t).

(** [unsigned sleep(unsigned int seconds)] *)
Definition sleep (b : build) (t : timer) (seconds : Z)
  : outcome (list sched_action * Z) :=
  if negb (NDEBUG b) && negb (sleep_fits t seconds)
  then
    AssertionFailed
      "((uint64_t)seconds * (uint64_t)CH_CFG_ST_FREQUENCY) < (1ULL << CH_CFG_ST_RESOLUTION)"
  else
    Done (if 0 <? seconds then [ChThdSleepSeconds seconds] else [], 0).

(** A value of a 32-bit unsigned type ([useconds_t], [unsigned int]). *)
Definition is_uint32 (x : Z) : Prop := 0 <= x < 2 ^ 32.

(** The ticks [chThdSleepS] is called with, in order. *)
Fixpoint slept (tr : list sched_action) : list Z :=
  match tr with
  | [] => []
  | ChThdSleepS ticks :: tr' => ticks :: slept tr'
  | _ :: tr' => slept tr'
  end.

(** ** The reboot request *)

(** [static bool reboot_request_flag = false;] *)
Record globals : Type := { reboot_request_flag : bool }.

Definition startup : globals := {| reboot_request_flag := false |}.

(** [void requestReboot()] *)
Definition requestReboot (g : globals) : globals := {| reboot_request_flag := true |}.

(** [bool isRebootRequested()] *)
Definition isRebootRequested (g : globals) : bool := reboot_request_flag g.

(** A call of one of the two functions. *)
Inductive reboot_call : Type :=
| call_requestReboot
| call_isRebootRequested.

(** Calls made one after the other: the state left and what the calls of
    [isRebootRequested] returned, in order. *)
Fixpoint reboot_calls (g : globals) (cs : list reboot_call) : globals * list bool :=
  match cs with
  | [] => (g, [])
  | call_requestReboot :: cs' => reboot_calls (requestReboot g) cs'
  | call_isRebootRequested :: cs' =>
      let (g', answers) := reboot_calls g cs' in
      (g', isRebootRequested g :: answers)
  end.

End Sched.

(* ================================================================== *)
(** * Vocabulary for the properties of the panic report *)
(* ================================================================== *)

Module Report.

Import Sys.
Local Open Scope string_scope.

(** Every action is a call of [emergencyPrint] with a string. *)
Definition only_prints (tr : list action) : Prop :=
  Forall (fun a => exists str, a = EmergencyPrint (Some str)) tr.

(** [t] returns, and does nothing but print. *)
Definition prints_only (t : itree sysE unit) : Prop :=
  exists tr, returns t tr tt /\ only_prints tr.

(** Whether the hook reaches its breakpoint: a debug build, the mask
    defined, and the debug-enable bit set in [DHCSR]. *)
Definition debugger_attached (b : build) (m : machine) : bool :=
  match DEBUG_BUILD b, CoreDebug_DHCSR_C_DEBUGEN_Msk b with
  | true, Some msk => negb (N.land (CoreDebug_DHCSR m) msk =? 0)%N
  | _, _ => false
  end.

(** The text [__assert_func] formats, before it is cut to the buffer. *)
Definition assertion_text (file : string) (line : Z) (func : option string)
    (expr : string) : string :=
  file ++ ":" ++ format_d line ++ ":" ++ text func ++ ":" ++ expr.



End Report.

(* ================================================================== *)
(** * Properties of the CRC-64-WE accumulator *)
(* ================================================================== *)

Section CRC64WE_Facts.

Import Bootloader.
Local Open Scope Z_scope.

Lemma Mask_value : Mask = 2 ^ 63.
Proof. reflexivity. Qed.

Lemma wrap64_mod (x : Z) : wrap64 x = x mod 2 ^ 64.
Proof.
  unfold wrap64. change uint64_max with (Z.ones 64).
  apply Z.land_ones. lia.
Qed.

Lemma shl64_one (x : Z) : shl64 x 1 = (2 * x) mod 2 ^ 64.
Proof.
  unfold shl64. rewrite wrap64_mod, Z.shiftl_mul_pow2 by lia.
  f_equal. lia.
Qed.

(** Testing [crc & Mask] is testing bit 63. *)
Lemma land_Mask_zero (x : Z) : (Z.land x Mask =? 0) = negb (Z.testbit x 63).
Proof.
  rewrite Mask_value.
  destruct (Z.testbit x 63) eqn:Hbit; cbn [negb].
  - apply Z.eqb_neq. intros Hz.
    assert (Hb : Z.testbit (Z.land x (2 ^ 63)) 63 = true).
    { rewrite Z.land_spec, Hbit, Z.pow2_bits_true by lia. reflexivity. }
    rewrite Hz in Hb. rewrite Z.bits_0 in Hb. discriminate.
  - apply Z.eqb_eq. apply Z.bits_inj'. intros n Hn.
    rewrite Z.land_spec, Z.bits_0, Z.pow2_bits_eqb by lia.
    destruct (63 =? n) eqn:Hcmp.
    + apply Z.eqb_eq in Hcmp. subst n. rewrite Hbit. reflexivity.
    + apply andb_false_r.
Qed.

(** A line of the unrolled body is a round of the documented algorithm. *)
Lemma shift_step_reference_round (x : Z) : shift_step x = reference_round x.
Proof.
  unfold shift_step, reference_round.
  rewrite land_Mask_zero, negb_involutive, shl64_one.
  reflexivity.
Qed.

Lemma byte_to_top (b : byte) :
  shl64 (uint64_of_byte b) 56 = Z.of_N (Byte.to_N b) * 2 ^ 56.
Proof.
  unfold shl64, uint64_of_byte.
  rewrite wrap64_mod, Z.shiftl_mul_pow2 by lia.
  pose proof (Byte.to_N_bounded b) as Hb.
  apply Z.mod_small. lia.
Qed.

Lemma add_reference (x : Z) (b : byte) :
  crc_ (add {| crc_ := x |} b) = reference_update x b.
Proof.
  unfold add, reference_update. cbn [crc_ Nat.iter nat_rect].
  rewrite byte_to_top, !shift_step_reference_round.
  reflexivity.
Qed.

(** The register stays a 64-bit value. *)
Lemma lxor_uint64 (x y : Z) : is_uint64 x -> is_uint64 y -> is_uint64 (Z.lxor x y).
Proof.
  unfold is_uint64. intros Hx Hy.
  assert (Heq : Z.lxor x y = Z.lxor x y mod 2 ^ 64).
  { apply Z.bits_inj'. intros n Hn.
    rewrite Z.testbit_mod_pow2 by lia.
    destruct (n <? 64) eqn:Hlt; [reflexivity|].
    apply Z.ltb_ge in Hlt. cbn [andb].
    rewrite Z.lxor_spec.
    rewrite <- (Z.mod_small x (2 ^ 64)), <- (Z.mod_small y (2 ^ 64)) by lia.
    rewrite !Z.mod_pow2_bits_high by lia. reflexivity. }
  rewrite Heq. apply Z.mod_pos_bound. lia.
Qed.

Lemma shl64_uint64 (x n : Z) : is_uint64 (shl64 x n).
Proof.
  unfold is_uint64, shl64. rewrite wrap64_mod. apply Z.mod_pos_bound. lia.
Qed.

Lemma shift_step_uint64 (x : Z) : is_uint64 (shift_step x).
Proof.
  unfold shift_step. destruct (negb _).
  - apply lxor_uint64; [apply shl64_uint64 | unfold is_uint64, Poly; lia].
  - apply shl64_uint64.
Qed.

Lemma add_uint64 (self : CRC64WE) (b : byte) : is_uint64 (crc_ (add self b)).
Proof. unfold add. cbn [crc_]. apply shift_step_uint64. Qed.

(** The loop of [add(buffer, length)] over [n] readable bytes is [add]
    on each of them. *)
Lemma add_loop_firstn (n : nat) :
  forall (bytes : list byte) (self : CRC64WE),
    (n <= List.length bytes)%nat ->
    add_loop n bytes self = Done (add_all self (firstn n bytes)).
Proof.
  induction n as [|n IH]; intros bytes self Hlen.
  - reflexivity.
  - destruct bytes as [|b rest]; cbn in Hlen; [lia|].
    cbn. apply IH. lia.
Qed.

Lemma do_call_in_contract (ndebug : bool) (self : CRC64WE) (c : call) :
  in_contract c -> do_call ndebug self c = Done (add_all self (fed c)).
Proof.
  destruct c as [b | [|bytes] len]; cbn; intros Hc.
  - reflexivity.
  - contradiction.
  - apply add_loop_firstn. exact Hc.
Qed.

Lemma do_calls_in_contract (ndebug : bool) (cs : list call) :
  forall self : CRC64WE,
    Forall in_contract cs ->
    do_calls ndebug self cs = Done (add_all self (List.concat (List.map fed cs))).
Proof.
  induction cs as [|c cs IH]; intros self Hcs.
  - reflexivity.
  - inversion Hcs as [|c' cs' Hc Hrest]; subst.
    cbn [do_calls]. rewrite (do_call_in_contract ndebug self c Hc).
    rewrite IH by assumption.
    cbn [List.map List.concat]. unfold add_all. rewrite fold_left_app.
    reflexivity.
Qed.

Lemma whole_in_contract (data : list byte) : in_contract (whole data).
Proof. cbn. rewrite Nat2N.id. lia. Qed.

Lemma fed_whole (data : list byte) : fed (whole data) = data.
Proof. cbn. rewrite Nat2N.id. apply firstn_all. Qed.

(** C1. Feeding the nine ASCII bytes of "123456789" to a fresh
    accumulator with [add], in order, and calling [get] gives the
    documented check value 0x62EC59E3F1A4F00A. *)
Theorem crc64we_check_value :
  check_input = [x31; x32; x33; x34; x35; x36; x37; x38; x39]%byte /\
  get (add_all fresh check_input) = 0x62EC59E3F1A4F00A.
Proof. split; vm_compute; reflexivity. Qed.

(** C2. Chunk invariance: for all byte sequences [A] and [B] and every
    way [cs] of feeding [A] followed by [B] through successive
    [add(byte)] and [add(buffer, length)] calls, the calls succeed and
    [get] afterwards returns what it returns after one
    [add(buffer, length)] call on the whole concatenation. *)
Theorem crc64we_chunk_invariance (ndebug : bool) (self : CRC64WE)
    (A B : list byte) (cs : list call) :
  splits cs (A ++ B) ->
  exists chunked once : CRC64WE,
    do_calls ndebug self cs = Done chunked /\
    do_call ndebug self (whole (A ++ B)) = Done once /\
    get chunked = get once.
Proof.
  intros [Hcs Hdata].
  exists (add_all self (A ++ B)), (add_all self (A ++ B)).
  split; [|split].
  - rewrite do_calls_in_contract by assumption. rewrite Hdata. reflexivity.
  - rewrite (do_call_in_contract ndebug self (whole (A ++ B)) (whole_in_contract (A ++ B))).
    rewrite fed_whole. reflexivity.
  - reflexivity.
Qed.

Lemma crc64we_chunk_invariance_witness :
  exists chunked once : CRC64WE,
    do_calls false fresh
      [call_add x01; call_add_buffer (ptr_to [x02; x03; x04]%byte) 2]
      = Done chunked /\
    do_call false fresh (whole ([x01; x02] ++ [x03])%byte) = Done once /\
    get chunked = get once.
Proof.
  apply (crc64we_chunk_invariance false fresh [x01; x02]%byte [x03]%byte).
  split.
  - repeat constructor.
  - reflexivity.
Defined.

(** C6. [get] on a fresh accumulator, before any [add], returns the seed
    0xFFFFFFFFFFFFFFFF XORed with the output mask 0xFFFFFFFFFFFFFFFF,
    which is 0. *)
Theorem crc64we_get_fresh :
  crc_ fresh = 0xFFFFFFFFFFFFFFFF /\
  get fresh = Z.lxor 0xFFFFFFFFFFFFFFFF 0xFFFFFFFFFFFFFFFF /\
  get fresh = 0.
Proof. repeat split. Qed.

(** C7. For every byte and every 64-bit register state, the unrolled
    [add(byte)] computes the state the documented algorithm computes:
    the byte XORed into the top 8 bits, then 8 rounds of shift left by 1
    with the polynomial XORed in when the bit shifted out was 1. *)
Theorem crc64we_add_refines_reference (x : Z) (b : byte) :
  is_uint64 x ->
  crc_ (add {| crc_ := x |} b) = reference_update x b.
Proof. intros _. apply add_reference. Qed.

Lemma crc64we_add_refines_reference_witness :
  is_uint64 0xFFFFFFFFFFFFFFFF /\
  crc_ (add {| crc_ := 0xFFFFFFFFFFFFFFFF |} x31) =
    reference_update 0xFFFFFFFFFFFFFFFF x31.
Proof.
  split.
  - unfold is_uint64. lia.
  - apply crc64we_add_refines_reference. unfold is_uint64. lia.
Defined.

(** C9, as stated, fails: in a build with assertions, [add(nullptr, 0)]
    trips [assert(bytes != nullptr)]. *)
Lemma crc64we_add_null_zero_length_asserts :
  add_buffer false fresh nullptr 0 = AssertionFailed "bytes != nullptr" /\
  add_buffer false fresh nullptr 0 <> Done fresh.
Proof. split; [reflexivity | discriminate]. Qed.

(** C9, amended. [add(bytes, 0)] leaves the running value unchanged when
    the pointer is not null, and also for a null pointer when assertions
    are compiled out; in a build with assertions a null pointer fails
    the assertion whatever the length. *)
Theorem crc64we_add_zero_length (ndebug : bool) (self : CRC64WE) (data : pointer) :
  (data <> nullptr \/ ndebug = true -> add_buffer ndebug self data 0 = Done self) /\
  (forall len : N,
      add_buffer false self nullptr len = AssertionFailed "bytes != nullptr").
Proof.
  split.
  - intros [Hptr | ->]; destruct data; try reflexivity.
    contradiction.
  - reflexivity.
Qed.

Lemma crc64we_add_zero_length_witness :
  add_buffer true fresh nullptr 0 = Done fresh /\
  add_buffer false fresh (ptr_to []) 0 = Done fresh.
Proof.
  split.
  - apply (crc64we_add_zero_length true fresh nullptr). right. reflexivity.
  - apply (crc64we_add_zero_length false fresh (ptr_to [])). left. discriminate.
Defined.

End CRC64WE_Facts.

(* ================================================================== *)
(** * Running programs: composition lemmas *)
(* ================================================================== *)

Section Run_Facts.

Import Sys.

Lemma observe_bind {E : Type -> Type} {R U : Type} (t : itree E R) (k : R -> itree E U) :
  observe (ITree.bind t k) =
  match observe t with
  | RetF r => observe (k r)
  | TauF t' => TauF (ITree.bind t' k)
  | VisF e h => VisF e (fun x => ITree.bind (h x) k)
  end.
Proof. unfold observe at 1. cbn. destruct (observe t); reflexivity. Qed.

(** More fuel does not change a run that has returned. *)
Lemma run_mono {R : Type} (f : nat) :
  forall (t : itree sysE R) (tr : list action) (r : R),
    run f t = (tr, Some r) ->
    forall f', f <= f' -> run f' t = (tr, Some r).
Proof.
  induction f as [|f IH]; intros t tr r Hrun f' Hle.
  - discriminate.
  - destruct f' as [|f']; [lia|].
    cbn [run] in *.
    destruct (observe t) as [r0 | t0 | X e k0].
    + exact Hrun.
    + apply IH with (f' := f') in Hrun; [exact Hrun | lia].
    + destruct e as [a].
      destruct (run f (k0 tt)) as [tr0 [r0|]] eqn:Hsub; inversion Hrun; subst.
      apply IH with (f' := f') in Hsub; [|lia].
      rewrite Hsub. reflexivity.
Qed.

(** A program returns in one way only. *)
Lemma returns_deterministic {R : Type} (t : itree sysE R)
    (tr1 tr2 : list action) (r1 r2 : R) :
  returns t tr1 r1 -> returns t tr2 r2 -> tr1 = tr2 /\ r1 = r2.
Proof.
  intros [f1 H1] [f2 H2].
  apply run_mono with (f' := Nat.max f1 f2) in H1; [|lia].
  apply run_mono with (f' := Nat.max f1 f2) in H2; [|lia].
  rewrite H1 in H2. inversion H2. split; reflexivity.
Qed.

(** Running [t >>= k] when [t] returns: the actions of [t], then a run
    of the continuation that is left all the fuel [t] did not use. *)
Lemma run_bind {R U : Type} (k : R -> itree sysE U) (f1 : nat) :
  forall (t : itree sysE R) (tr1 : list action) (r : R),
    run f1 t = (tr1, Some r) ->
    forall f, f1 <= f ->
    exists g, f - f1 < g <= f /\
      run f (ITree.bind t k) = (tr1 ++ fst (run g (k r)), snd (run g (k r))).
Proof.
  induction f1 as [|f1 IH]; intros t tr1 r Hrun f Hle.
  - discriminate.
  - destruct f as [|f]; [lia|].
    cbn [run] in Hrun |- *. rewrite observe_bind.
    destruct (observe t) as [r0 | t0 | X e k0].
    + inversion Hrun; subst. exists (S f). split; [lia|].
      cbn [run app]. destruct (observe (k r)) as [s | u | Y e h].
      * reflexivity.
      * destruct (run f u); reflexivity.
      * destruct e as [a]. destruct (run f (h tt)); reflexivity.
    + destruct (IH t0 tr1 r Hrun f) as (g & Hg & Heq); [lia|].
      exists g. split; [lia | exact Heq].
    + destruct e as [a].
      destruct (run f1 (k0 tt)) as [tr0 [r0|]] eqn:Hsub; inversion Hrun; subst.
      destruct (IH (k0 tt) tr0 r Hsub f) as (g & Hg & Heq); [lia|].
      exists g. split; [lia|]. rewrite Heq. reflexivity.
Qed.

Lemma returns_Ret {R : Type} (r : R) : returns (Ret r) [] r.
Proof. exists 1. reflexivity. Qed.

Lemma returns_perform (a : action) : returns (ITree.trigger (Perform a)) [a] tt.
Proof. exists 2. reflexivity. Qed.

Lemma returns_bind {R U : Type} (t : itree sysE R) (k : R -> itree sysE U)
    (tr1 tr2 : list action) (r : R) (s : U) :
  returns t tr1 r -> returns (k r) tr2 s -> returns (ITree.bind t k) (tr1 ++ tr2) s.
Proof.
  intros [f1 H1] [f2 H2].
  destruct (run_bind k f1 t tr1 r H1 (f1 + f2)) as (g & Hg & Heq); [lia|].
  exists (f1 + f2). rewrite Heq.
  rewrite (run_mono f2 (k r) tr2 s H2 g) by lia.
  reflexivity.
Qed.

Lemma halts_after_bind {R U : Type} (t : itree sysE R) (k : R -> itree sysE U)
    (tr1 tr2 : list action) (r : R) :
  returns t tr1 r -> halts_after (k r) tr2 -> halts_after (ITree.bind t k) (tr1 ++ tr2).
Proof.
  intros [f1 H1] [f0 H0].
  exists (f1 + f0). intros f Hf.
  destruct (run_bind k f1 t tr1 r H1 f) as (g & Hg & Heq); [lia|].
  rewrite Heq. rewrite H0 by lia. reflexivity.
Qed.

(** What follows a call that never returns is never reached. *)
Lemma run_bind_never_returns {R U : Type} (k : R -> itree sysE U) (f : nat) :
  forall t : itree sysE R,
    never_returns t -> run f (ITree.bind t k) = (fst (run f t), None).
Proof.
  induction f as [|f IH]; intros t Hnr.
  - reflexivity.
  - pose proof (Hnr (S f)) as H1. cbn [run] in H1 |- *.
    rewrite observe_bind.
    destruct (observe t) as [r0 | t0 | X e k0] eqn:Hobs.
    + discriminate.
    + apply IH. intros g. specialize (Hnr (S g)). cbn [run] in Hnr.
      rewrite Hobs in Hnr. exact Hnr.
    + destruct e as [a].
      rewrite IH.
      * destruct (run f (k0 tt)); reflexivity.
      * intros g. specialize (Hnr (S g)). cbn [run] in Hnr.
        rewrite Hobs in Hnr. destruct (run g (k0 tt)); exact Hnr.
Qed.

Lemma never_returns_bind_l {R U : Type} (t : itree sysE R) (k : R -> itree sysE U) :
  never_returns t -> never_returns (ITree.bind t k).
Proof. intros Hnr f. rewrite run_bind_never_returns by assumption. reflexivity. Qed.

Lemma never_returns_bind_r {R U : Type} (k : R -> itree sysE U) :
  (forall r, never_returns (k r)) ->
  forall t : itree sysE R, never_returns (ITree.bind t k).
Proof.
  intros Hk t f. revert t.
  induction f as [|f IH]; intros t.
  - reflexivity.
  - cbn [run]. rewrite observe_bind.
    destruct (observe t) as [r0 | t0 | X e k0].
    + specialize (Hk r0 (S f)). cbn [run] in Hk. exact Hk.
    + apply IH.
    + destruct e as [a]. specialize (IH (k0 tt)).
      destruct (run f (ITree.bind (k0 tt) k)); exact IH.
Qed.

Lemma halts_after_never_returns {R : Type} (t : itree sysE R) (tr : list action) :
  halts_after t tr -> never_returns t.
Proof.
  intros [f0 H0] f.
  destruct (run f t) as [tr' [r|]] eqn:Hrun; [|reflexivity].
  apply run_mono with (f' := Nat.max f f0) in Hrun; [|lia].
  rewrite H0 in Hrun by lia. discriminate.
Qed.

Lemma returns_not_never_returns {R : Type} (t : itree sysE R) (tr : list action) (r : R) :
  returns t tr r -> ~ never_returns t.
Proof. intros [f Hrun] Hnr. specialize (Hnr f). rewrite Hrun in Hnr. discriminate. Qed.

(** [while (true) { }] runs forever and does nothing. *)
Lemma run_while_true {R : Type} (f : nat) : run f (@while_true R) = ([], None).
Proof.
  induction f as [|f IH]; [reflexivity|].
  destruct f as [|f]; [reflexivity|].
  exact IH.
Qed.

End Run_Facts.

(* ================================================================== *)
(** * Properties of the halt path and of the allocation guard *)
(* ================================================================== *)

Section Sys_Facts.

Import Sys.
Local Open Scope string_scope.

Lemma string_append_assoc (s1 s2 s3 : string) :
  (s1 ++ s2) ++ s3 = s1 ++ (s2 ++ s3).
Proof. induction s1 as [|c s1 IH]; cbn; [reflexivity | rewrite IH; reflexivity]. Qed.

Lemma string_length_append (s1 s2 : string) :
  String.length (s1 ++ s2) = (String.length s1 + String.length s2)%nat.
Proof. induction s1 as [|c s1 IH]; cbn; [reflexivity | rewrite IH; reflexivity]. Qed.

Lemma sink_app (tr1 tr2 : list action) :
  sink (tr1 ++ tr2)%list = sink tr1 ++ sink tr2.
Proof.
  induction tr1 as [|a tr1 IH]; [reflexivity|].
  destruct a as [| | [str|] |]; cbn; rewrite ?IH; try reflexivity.
  symmetry. apply string_append_assoc.
Qed.

Lemma no_null_print_app (tr1 tr2 : list action) :
  no_null_print tr1 -> no_null_print tr2 -> no_null_print (tr1 ++ tr2)%list.
Proof. unfold no_null_print. intros H1 H2. apply Forall_app. split; assumption. Qed.

(** *** Programs that only print *)

Lemma prints_safely_Ret : prints_safely (Ret tt).
Proof. exists []. split; [apply returns_Ret | constructor]. Qed.

Lemma prints_safely_emergencyPrint (str : string) : prints_safely (emergencyPrint (Some str)).
Proof.
  exists [EmergencyPrint (Some str)]. split.
  - apply returns_perform.
  - repeat constructor. discriminate.
Qed.

Lemma prints_safely_bkpt : prints_safely bkpt.
Proof.
  exists [Breakpoint]. split.
  - apply returns_perform.
  - repeat constructor. discriminate.
Qed.

Lemma prints_safely_seq (t u : itree sysE unit) :
  prints_safely t -> prints_safely u -> prints_safely (ITree.bind t (fun _ => u)).
Proof.
  intros (tr1 & Ht & Hn1) (tr2 & Hu & Hn2).
  exists (tr1 ++ tr2)%list. split.
  - apply returns_bind with (r := tt); assumption.
  - apply no_null_print_app; assumption.
Qed.

Ltac prints_safely_step :=
  lazymatch goal with
  | |- prints_safely (ITree.bind _ _) => apply prints_safely_seq
  | |- prints_safely (emergencyPrint (Some _)) => apply prints_safely_emergencyPrint
  | |- prints_safely (Ret tt) => apply prints_safely_Ret
  | |- prints_safely bkpt => apply prints_safely_bkpt
  end.

Lemma print_register_safely (name : string) (value : N) :
  prints_safely (print_register name value).
Proof. unfold print_register. cbv zeta. repeat prints_safely_step. Qed.

Lemma print_stack_safely (m : machine) (ptr : N) : prints_safely (print_stack m ptr).
Proof.
  unfold print_stack.
  repeat lazymatch goal with
    | |- prints_safely (print_register _ _) => apply print_register_safely
    | |- prints_safely (ITree.bind _ _) => apply prints_safely_seq
    end.
Qed.

Lemma print_registers_safely (b : build) (m : machine) :
  prints_safely (print_registers b m).
Proof.
  unfold print_registers, PRINT_CORE_REGISTER, PRINT_SCB_REGISTER.
  destruct (3 <=? CORTEX_M b)%N, (4 <=? CORTEX_M b)%N;
    repeat lazymatch goal with
      | |- prints_safely (print_register _ _) => apply print_register_safely
      | |- prints_safely (print_stack _ _) => apply print_stack_safely
      | |- _ => prints_safely_step
      end.
Qed.

Lemma debug_breakpoint_safely (b : build) (m : machine) :
  prints_safely (debug_breakpoint b m).
Proof.
  unfold debug_breakpoint.
  destruct (DEBUG_BUILD b), (CoreDebug_DHCSR_C_DEBUGEN_Msk b) as [msk|];
    try apply prints_safely_Ret.
  destruct (negb _); prints_safely_step.
Qed.

(** What the hook does after the trailing delimiter of the message. *)
Lemma report_tail_safely (b : build) (m : machine) :
  prints_safely
    (ITree.bind (if negb (AGGRESSIVE_SIZE_OPTIMIZATION b)
                 then print_registers b m else Ret tt)
                (fun _ => debug_breakpoint b m)).
Proof.
  apply prints_safely_seq.
  - destruct (negb _); [apply print_registers_safely | apply prints_safely_Ret].
  - apply debug_breakpoint_safely.
Qed.

Lemma returns_guarded_print (s : option string) :
  returns (match s with Some _ => emergencyPrint s | None => Ret tt end) (prints s) tt.
Proof. destruct s; [apply returns_perform | apply returns_Ret]. Qed.

Lemma returns_thread_name (b : build) (m : machine) :
  returns
    (if CH_CFG_USE_REGISTRY b
     then
       match chThdGetSelfX m with
       | Some pthread =>
           match name pthread with
           | Some _ => emergencyPrint (name pthread)
           | None => Ret tt
           end
       | None => Ret tt
       end
     else Ret tt)
    (prints (thread_name b m)) tt.
Proof.
  unfold thread_name.
  destruct (CH_CFG_USE_REGISTRY b); [|apply returns_Ret].
  destruct (chThdGetSelfX m) as [pthread|]; [|apply returns_Ret].
  apply returns_guarded_print.
Qed.

(** The run of the hook: the header and the message, the closing line,
    then a tail that does not depend on the message. *)
Lemma zchSysHaltHook_returns (b : build) (m : machine) :
  exists after : list action,
    no_null_print after /\
    forall msg : option string,
      returns (zchSysHaltHook b m msg)
        ([ApplicationHaltHook; PortDisable;
          EmergencyPrint (Some (CRLF ++ "PANIC [")%string)]
           ++ prints (thread_name b m)
           ++ [EmergencyPrint (Some "] ")]
           ++ prints msg
           ++ [EmergencyPrint (Some CRLF)]
           ++ after)%list
        tt.
Proof.
  destruct (report_tail_safely b m) as (after & Hafter & Hnull).
  exists after. split; [exact Hnull|]. intros msg.
  unfold zchSysHaltHook.
  apply returns_bind with (tr1 := [ApplicationHaltHook]) (r := tt);
    [apply returns_perform|].
  apply returns_bind with (tr1 := [PortDisable]) (r := tt);
    [apply returns_perform|].
  apply returns_bind with (tr1 := [EmergencyPrint (Some (CRLF ++ "PANIC ["))]) (r := tt);
    [apply returns_perform|].
  apply returns_bind with (r := tt); [apply returns_thread_name|].
  apply returns_bind with (r := tt); [apply returns_perform|].
  apply returns_bind with (r := tt); [apply returns_guarded_print|].
  apply returns_bind with (r := tt); [apply returns_perform|].
  exact Hafter.
Qed.

(** *** The halt loop *)

Lemma while_true_halts {R : Type} : halts_after (@while_true R) [].
Proof. exists 0%nat. intros f _. apply run_while_true. Qed.

Lemma while_true_never_returns {R : Type} : never_returns (@while_true R).
Proof. intros f. rewrite run_while_true. reflexivity. Qed.

Lemma halts_after_bind_l {R U : Type} (t : itree sysE R) (k : R -> itree sysE U)
    (tr : list action) :
  halts_after t tr -> halts_after (ITree.bind t k) tr.
Proof.
  intros Hhalt. pose proof (halts_after_never_returns t tr Hhalt) as Hnr.
  destruct Hhalt as [f0 H0]. exists f0. intros f Hf.
  rewrite run_bind_never_returns by assumption.
  rewrite H0 by assumption. reflexivity.
Qed.

Lemma chSysHalt_halts (b : build) (m : machine) (reason : option string) :
  exists tr, halts_after (chSysHalt b m reason) tr.
Proof.
  destruct (zchSysHaltHook_returns b m) as (after & _ & Hret).
  eexists. unfold chSysHalt.
  eapply halts_after_bind with (r := tt); [apply Hret | apply while_true_halts].
Qed.

Lemma chSysHalt_never_returns (b : build) (m : machine) (reason : option string) :
  never_returns (chSysHalt b m reason).
Proof.
  destruct (chSysHalt_halts b m reason) as [tr Hhalt].
  exact (halts_after_never_returns _ tr Hhalt).
Qed.

(** The assertion handler ends in its own loop, whatever the kernel's
    halt does. *)
Lemma assert_func_never_returns (halt : option string -> itree sysE unit)
    (file : string) (line : Z) (func : option string) (expr : string) :
  never_returns (__assert_func halt file line func expr).
Proof.
  unfold __assert_func. cbv zeta.
  apply never_returns_bind_r. intros _.
  apply never_returns_bind_r. intros _.
  apply while_true_never_returns.
Qed.

Lemma assert_func_halts (b : build) (m : machine)
    (file : string) (line : Z) (func : option string) (expr : string) :
  exists tr, halts_after (__assert_func (chSysHalt b m) file line func expr) tr.
Proof.
  unfold __assert_func. cbv zeta.
  match goal with
  | |- context [chSysHalt b m ?reason] =>
      destruct (chSysHalt_halts b m reason) as [tr Hhalt]
  end.
  exists ([PortDisable] ++ tr)%list.
  apply halts_after_bind with (r := tt); [apply returns_perform|].
  apply halts_after_bind_l. exact Hhalt.
Qed.

(** *** The allocation guard *)

Lemma returns_then_Ret {R U : Type} (v : U) (f : nat) :
  forall (t : itree sysE R) (tr : list action) (r : U),
    run f (ITree.bind t (fun _ => Ret v)) = (tr, Some r) -> r = v.
Proof.
  induction f as [|f IH]; intros t tr r Hrun.
  - discriminate.
  - cbn [run] in Hrun. rewrite observe_bind in Hrun.
    destruct (observe t) as [r0 | t0 | X e k0].
    + cbn in Hrun. inversion Hrun. reflexivity.
    + exact (IH t0 tr r Hrun).
    + destruct e as [a].
      destruct (run f (ITree.bind (k0 tt) (fun _ => Ret v))) as [tr0 [r0|]] eqn:Hsub;
        inversion Hrun; subst.
      exact (IH (k0 tt) tr0 r Hsub).
Qed.

Section Guard.

Variable halt : option string -> itree sysE unit.
Variable b : build.

Lemma assert_holds (line : Z) (func expr : string) :
  returns (ITree.bind (assert halt b line func expr true) (fun _ => Ret null)) [] null.
Proof. unfold assert. exists 1%nat. destruct (NDEBUG b); reflexivity. Qed.

Lemma assert_fails (line : Z) (func expr : string) :
  NDEBUG b = false ->
  fails_assertion halt b
    (ITree.bind (assert halt b line func expr false) (fun _ => Ret null))
    line func expr.
Proof.
  intros Hb. unfold assert. rewrite Hb.
  split.
  - apply never_returns_bind_l. apply assert_func_never_returns.
  - intros f. rewrite run_bind_never_returns by apply assert_func_never_returns.
    reflexivity.
Qed.

End Guard.

(** *** The model at work *)

(** A failed [assert] in [malloc] of a debug build: the sink receives
    the panic line with the thread name and the assertion text, then the
    register dump begins. *)
Example malloc_panic_line :
  prefix
    (CRLF ++ "PANIC [main] sys.cpp:235:malloc:sz == 0" ++ CRLF
          ++ CRLF ++ "Core registers:" ++ CRLF
          ++ "CONTROL" ++ String TAB "00000000" ++ CRLF)
    (sink (fst (run 400 (malloc (chSysHalt debug_build sample_machine) debug_build 16))))
  = true.
Proof. vm_compute. reflexivity. Qed.

(** The debug build with the debugger attached ends the hook with a
    breakpoint. *)
Example debug_build_breaks :
  last (fst (run 400 (zchSysHaltHook debug_build sample_machine None))) PortDisable
  = Breakpoint.
Proof. vm_compute. reflexivity. Qed.

(** *** The claims *)

(** C3. The halt path never returns to its caller.  A failed assertion
    ([__assert_func]) does not return whatever the kernel's halt does;
    with the kernel's [chSysHalt] as the specification describes it, a
    failed assertion, an unhandled trap ([_unhandled_exception]) and an
    explicit halt request ([chSysHalt]) each perform finitely many
    actions and then loop forever, without another action and without
    returning. *)
Theorem halt_path_never_returns (b : build) (m : machine) :
  (forall halt file line func expr,
      never_returns (__assert_func halt file line func expr)) /\
  (forall file line func expr,
      never_returns (__assert_func (chSysHalt b m) file line func expr) /\
      exists tr, halts_after (__assert_func (chSysHalt b m) file line func expr) tr) /\
  (never_returns (_unhandled_exception (chSysHalt b m)) /\
   exists tr, halts_after (_unhandled_exception (chSysHalt b m)) tr) /\
  (forall reason,
      never_returns (chSysHalt b m reason) /\
      exists tr, halts_after (chSysHalt b m reason) tr).
Proof.
  split; [|split; [|split]].
  - intros. apply assert_func_never_returns.
  - intros. split; [apply assert_func_never_returns | apply assert_func_halts].
  - unfold _unhandled_exception.
    split; [apply chSysHalt_never_returns | apply chSysHalt_halts].
  - intros. split; [apply chSysHalt_never_returns | apply chSysHalt_halts].
Qed.

(** C4, as stated, fails for [calloc]: in a build with assertions,
    [calloc(0, 8)] is called with a nonzero size, and it performs no
    action and returns null; the assertion handler does not run. *)
Lemma calloc_zero_count_returns :
  NDEBUG debug_build = false /\
  returns (calloc (chSysHalt debug_build sample_machine) debug_build 0 8) [] null /\
  ~ never_returns (calloc (chSysHalt debug_build sample_machine) debug_build 0 8).
Proof.
  assert (Hret :
    returns (calloc (chSysHalt debug_build sample_machine) debug_build 0 8) [] null).
  { exists 1%nat. reflexivity. }
  split; [reflexivity | split; [exact Hret|]].
  exact (returns_not_never_returns _ [] null Hret).
Qed.

(** C4, amended. [malloc], [calloc] and [realloc] return null whenever
    they return; a request of size zero (for [calloc]: a count or a size
    of zero) performs no action, so trips no assertion, in any build; in
    a build with assertions, [malloc] and [realloc] called with a
    nonzero size, and [calloc] called with a nonzero count and a nonzero
    size, run the assertion handler, which does not return. *)
Theorem allocation_guard (halt : option string -> itree sysE unit) (b : build) :
  ((forall sz tr r, returns (malloc halt b sz) tr r -> r = null) /\
   (forall num sz tr r, returns (calloc halt b num sz) tr r -> r = null) /\
   (forall p sz tr r, returns (realloc halt b p sz) tr r -> r = null)) /\
  (returns (malloc halt b 0) [] null /\
   (forall num sz, (num * sz = 0)%N -> returns (calloc halt b num sz) [] null) /\
   (forall p, returns (realloc halt b p 0) [] null)) /\
  (NDEBUG b = false ->
   (forall sz, sz <> 0%N ->
      fails_assertion halt b (malloc halt b sz) 235 "malloc" "sz == 0") /\
   (forall num sz, (num * sz <> 0)%N ->
      fails_assertion halt b (calloc halt b num sz)
        243 "calloc" "(num == 0) || (sz == 0)") /\
   (forall p sz, sz <> 0%N ->
      fails_assertion halt b (realloc halt b p sz) 250 "realloc" "sz == 0")).
Proof.
  split; [|split].
  - split; [|split]; intros until r; intros [f Hrun];
      exact (returns_then_Ret null f _ tr r Hrun).
  - split; [|split].
    + apply assert_holds.
    + intros num sz Hzero. unfold calloc.
      replace ((num =? 0)%N || (sz =? 0)%N) with true; [apply assert_holds|].
      symmetry. apply orb_true_iff. rewrite !N.eqb_eq. apply N.eq_mul_0. exact Hzero.
    + intros p. apply assert_holds.
  - intros Hb. split; [|split].
    + intros sz Hsz. unfold malloc.
      replace (sz =? 0)%N with false by (symmetry; apply N.eqb_neq; exact Hsz).
      apply assert_fails; exact Hb.
    + intros num sz Hnz. unfold calloc.
      replace ((num =? 0)%N || (sz =? 0)%N) with false; [apply assert_fails; exact Hb|].
      symmetry. apply orb_false_iff. rewrite !N.eqb_neq. split; intros ->; apply Hnz; lia.
    + intros p sz Hsz. unfold realloc.
      replace (sz =? 0)%N with false by (symmetry; apply N.eqb_neq; exact Hsz).
      apply assert_fails; exact Hb.
Qed.

Lemma allocation_guard_witness :
  returns (calloc (chSysHalt debug_build sample_machine) debug_build 0 0) [] null /\
  returns (calloc (chSysHalt debug_build sample_machine) small_build 0 0) [] null /\
  fails_assertion (chSysHalt debug_build sample_machine) debug_build
    (malloc (chSysHalt debug_build sample_machine) debug_build 16)
    235 "malloc" "sz == 0".
Proof.
  split; [|split].
  - destruct (allocation_guard (chSysHalt debug_build sample_machine) debug_build)
      as (_ & (_ & Hcalloc & _) & _).
    apply Hcalloc. reflexivity.
  - destruct (allocation_guard (chSysHalt debug_build sample_machine) small_build)
      as (_ & (_ & Hcalloc & _) & _).
    apply Hcalloc. reflexivity.
  - destruct (allocation_guard (chSysHalt debug_build sample_machine) debug_build)
      as (_ & _ & Hfail).
    destruct (Hfail eq_refl) as (Hmalloc & _ & _).
    apply Hmalloc. discriminate.
Defined.

(** C5. [free] of a null pointer performs no action and returns; [free]
    of any other pointer is the kernel's halt called with the message
    "free".  The kernel's halt not returning, [free] does not return
    exactly when the pointer is not null. *)
Theorem free_guard (halt : option string -> itree sysE unit) (p : N) :
  (forall reason, never_returns (halt reason)) ->
  (p = null -> returns (free halt p) [] tt) /\
  (p <> null -> free halt p = halt (Some "free")) /\
  (never_returns (free halt p) <-> p <> null).
Proof.
  intros Hhalt. unfold free.
  destruct (p =? null)%N eqn:Hp; cbn [negb].
  - apply N.eqb_eq in Hp. split; [|split; [|split]].
    + intros _. apply returns_Ret.
    + intros Hne. contradiction.
    + intros Hnr. exfalso.
      exact (returns_not_never_returns (Ret tt) [] tt (returns_Ret tt) Hnr).
    + intros Hne. contradiction.
  - apply N.eqb_neq in Hp. split; [|split; [|split]].
    + intros Heq. contradiction.
    + intros _. reflexivity.
    + intros _. exact Hp.
    + intros _. apply Hhalt.
Qed.

Lemma free_guard_witness :
  returns (free (chSysHalt debug_build sample_machine) 0) [] tt /\
  free (chSysHalt debug_build sample_machine) 536870912 =
    chSysHalt debug_build sample_machine (Some "free") /\
  never_returns (free (chSysHalt debug_build sample_machine) 536870912).
Proof.
  split; [|split].
  - destruct (free_guard (chSysHalt debug_build sample_machine) 0
                (chSysHalt_never_returns debug_build sample_machine))
      as (Hnull & _ & _).
    apply Hnull. reflexivity.
  - destruct (free_guard (chSysHalt debug_build sample_machine) 536870912
                (chSysHalt_never_returns debug_build sample_machine))
      as (_ & Hhalt & _).
    apply Hhalt. discriminate.
  - destruct (free_guard (chSysHalt debug_build sample_machine) 536870912
                (chSysHalt_never_returns debug_build sample_machine))
      as (_ & _ & Hiff).
    apply Hiff. discriminate.
Defined.

(** C8, as stated, fails: in a build without the thread registry the
    sink receives nothing between the opening "PANIC [" and the closing
    "] ": no placeholder stands for the missing thread name. *)
Lemma halt_report_has_no_placeholder :
  returns (zchSysHaltHook small_build sample_machine (Some "boom"))
    [ApplicationHaltHook; PortDisable;
     EmergencyPrint (Some (CRLF ++ "PANIC ["));
     EmergencyPrint (Some "] ");
     EmergencyPrint (Some "boom");
     EmergencyPrint (Some CRLF)] tt /\
  ~ reports_with_placeholder small_build sample_machine "boom".
Proof.
  assert (Hrun :
    returns (zchSysHaltHook small_build sample_machine (Some "boom"))
      [ApplicationHaltHook; PortDisable;
       EmergencyPrint (Some (CRLF ++ "PANIC ["));
       EmergencyPrint (Some "] ");
       EmergencyPrint (Some "boom");
       EmergencyPrint (Some CRLF)] tt).
  { exists 20%nat. vm_compute. reflexivity. }
  split; [exact Hrun|].
  intros (placeholder & Hne & tr & rest & Hret & Hsink).
  destruct (returns_deterministic _ _ _ _ _ Hret Hrun) as [-> _].
  apply (f_equal String.length) in Hsink.
  rewrite !string_length_append in Hsink.
  destruct placeholder as [|c placeholder]; [apply Hne; reflexivity|].
  cbn in Hsink. lia.
Qed.

(** C8, amended. Called with a message, the hook returns, and the sink
    has received, in order: the opening "\r\nPANIC [", the name of the
    running thread when the build has the registry and neither the
    thread pointer nor its name is null (nothing otherwise), the closing
    "] ", the message, and the trailing "\r\n". *)
Theorem halt_report_order (b : build) (m : machine) (msg : string) :
  exists tr rest,
    returns (zchSysHaltHook b m (Some msg)) tr tt /\
    sink tr =
      (CRLF ++ "PANIC [") ++ text (thread_name b m) ++ "] " ++ msg ++ CRLF ++ rest.
Proof.
  destruct (zchSysHaltHook_returns b m) as (after & _ & Hret).
  eexists. exists (sink after). split; [apply (Hret (Some msg))|].
  destruct (thread_name b m) as [n|]; reflexivity.
Qed.

(** C10. With a null message the hook returns; the sink receives the
    header (opening, thread name, closing "] ") and then at once the
    trailing "\r\n"; no call of [emergencyPrint] is passed a null
    pointer; and the run is the run with a message less the one call
    that prints the message. *)
Theorem halt_hook_null_message (b : build) (m : machine) :
  exists before after : list action,
    returns (zchSysHaltHook b m None)
      (before ++ EmergencyPrint (Some CRLF) :: after)%list tt /\
    sink before = (CRLF ++ "PANIC [") ++ text (thread_name b m) ++ "] " /\
    no_null_print (before ++ EmergencyPrint (Some CRLF) :: after)%list /\
    forall msg : string,
      returns (zchSysHaltHook b m (Some msg))
        (before ++ EmergencyPrint (Some msg) :: EmergencyPrint (Some CRLF) :: after)%list
        tt.
Proof.
  destruct (zchSysHaltHook_returns b m) as (after & Hnull & Hret).
  exists ([ApplicationHaltHook; PortDisable;
           EmergencyPrint (Some (CRLF ++ "PANIC [")%string)]
            ++ prints (thread_name b m)
            ++ [EmergencyPrint (Some "] ")])%list, after.
  split; [|split; [|split]].
  - rewrite <- !app_assoc. exact (Hret None).
  - destruct (thread_name b m) as [n|]; reflexivity.
  - apply no_null_print_app.
    + destruct (thread_name b m) as [n|]; repeat constructor; discriminate.
    + constructor; [discriminate | exact Hnull].
  - intros msg. rewrite <- !app_assoc. exact (Hret (Some msg)).
Qed.

End Sys_Facts.

(* ================================================================== *)
(** * Further properties of the CRC-64-WE accumulator *)
(* ================================================================== *)

Section CRC64WE_More.

Import Bootloader.
Local Open Scope Z_scope.

Lemma uint64_high_bits (x n : Z) : is_uint64 x -> 64 <= n -> Z.testbit x n = false.
Proof.
  unfold is_uint64. intros Hx Hn.
  rewrite <- (Z.mod_small x (2 ^ 64)) by lia.
  apply Z.mod_pow2_bits_high. lia.
Qed.

Lemma Poly_high_bits (n : Z) : 64 <= n -> Z.testbit Poly n = false.
Proof. apply uint64_high_bits. unfold is_uint64, Poly. lia. Qed.

(** The bits of the register after one line of the unrolled body. *)
Lemma shift_step_bits (x n : Z) :
  0 <= n ->
  Z.testbit (shift_step x) n =
    (n <? 64) && xorb (Z.testbit x (n - 1)) (Z.testbit x 63 && Z.testbit Poly n).
Proof.
  intros Hn. rewrite shift_step_reference_round. unfold reference_round. cbv zeta.
  fold Poly. replace (2 * x) with (x * 2 ^ 1) by lia.
  destruct (Z.testbit x 63).
  - rewrite Z.lxor_spec, Z.testbit_mod_pow2, Z.mul_pow2_bits by lia.
    destruct (n <? 64) eqn:Hlt; cbn [andb]; [reflexivity|].
    apply Z.ltb_ge in Hlt. rewrite Poly_high_bits by lia. reflexivity.
  - rewrite Z.testbit_mod_pow2, Z.mul_pow2_bits by lia.
    cbn [andb]. rewrite xorb_false_r. reflexivity.
Qed.

Lemma lxor_cancel_r (x y c : Z) : Z.lxor x c = Z.lxor y c -> x = y.
Proof.
  intros H. apply (f_equal (fun z => Z.lxor z c)) in H.
  rewrite !Z.lxor_assoc, Z.lxor_nilpotent, !Z.lxor_0_r in H. exact H.
Qed.

Lemma lxor_cancel_l (c x y : Z) : Z.lxor c x = Z.lxor c y -> x = y.
Proof. rewrite !(Z.lxor_comm c). apply lxor_cancel_r. Qed.

(** A line of the unrolled body loses nothing of a 64-bit register. *)
Lemma shift_step_injective (x y : Z) :
  is_uint64 x -> is_uint64 y -> shift_step x = shift_step y -> x = y.
Proof.
  intros Hx Hy Heq.
  assert (Hbits : forall k, 0 <= k ->
            Z.testbit (shift_step x) k = Z.testbit (shift_step y) k)
    by (intros; rewrite Heq; reflexivity).
  assert (Htop : Z.testbit x 63 = Z.testbit y 63).
  { specialize (Hbits 0 ltac:(lia)). rewrite !shift_step_bits in Hbits by lia.
    cbn in Hbits. rewrite !andb_true_r in Hbits. exact Hbits. }
  apply Z.bits_inj'. intros n Hn.
  destruct (Z_lt_le_dec n 63) as [Hlow | Hhigh].
  - specialize (Hbits (n + 1) ltac:(lia)).
    rewrite !shift_step_bits in Hbits by lia.
    replace (n + 1 - 1) with n in Hbits by lia.
    replace (n + 1 <? 64) with true in Hbits by (symmetry; apply Z.ltb_lt; lia).
    rewrite Htop in Hbits. cbn [andb] in Hbits.
    destruct (Z.testbit x n), (Z.testbit y n), (Z.testbit y 63 && Z.testbit Poly (n + 1));
      cbn in Hbits; congruence.
  - destruct (Z.eq_dec n 63) as [-> | Hne]; [exact Htop|].
    rewrite !uint64_high_bits by (assumption || lia). reflexivity.
Qed.

Lemma iter_shift_step_uint64 (n : nat) (x : Z) :
  is_uint64 x -> is_uint64 (Nat.iter n shift_step x).
Proof. intros Hx. destruct n; [exact Hx | apply shift_step_uint64]. Qed.

Lemma iter_shift_step_injective (n : nat) (x y : Z) :
  is_uint64 x -> is_uint64 y ->
  Nat.iter n shift_step x = Nat.iter n shift_step y -> x = y.
Proof.
  intros Hx Hy. induction n as [|n IH]; cbn [Nat.iter nat_rect]; [trivial|].
  intros Heq. apply IH.
  apply shift_step_injective; [apply iter_shift_step_uint64 .. | exact Heq]; assumption.
Qed.

Lemma add_unrolled (self : CRC64WE) (b : byte) :
  crc_ (add self b) =
  Nat.iter 8 shift_step (Z.lxor (crc_ self) (shl64 (uint64_of_byte b) 56)).
Proof. reflexivity. Qed.

Lemma byte_to_top_uint64 (b : byte) : is_uint64 (shl64 (uint64_of_byte b) 56).
Proof. apply shl64_uint64. Qed.

Lemma byte_to_top_injective (b b' : byte) :
  shl64 (uint64_of_byte b) 56 = shl64 (uint64_of_byte b') 56 -> b = b'.
Proof.
  rewrite !byte_to_top. intros Heq.
  assert (HN : Byte.to_N b = Byte.to_N b') by lia.
  pose proof (Byte.of_to_N b) as H1. pose proof (Byte.of_to_N b') as H2.
  rewrite HN in H1. congruence.
Qed.

(** [add(byte)] is one-to-one in the register... *)
Lemma add_injective_state (s1 s2 : CRC64WE) (b : byte) :
  is_uint64 (crc_ s1) -> is_uint64 (crc_ s2) ->
  crc_ (add s1 b) = crc_ (add s2 b) -> crc_ s1 = crc_ s2.
Proof.
  intros H1 H2. rewrite !add_unrolled. intros Heq.
  apply iter_shift_step_injective in Heq;
    try (apply lxor_uint64; [assumption | apply byte_to_top_uint64]).
  exact (lxor_cancel_r _ _ _ Heq).
Qed.

(** ... and in the byte. *)
Lemma add_injective_byte (self : CRC64WE) (b b' : byte) :
  is_uint64 (crc_ self) ->
  crc_ (add self b) = crc_ (add self b') -> b = b'.
Proof.
  intros Hs. rewrite !add_unrolled. intros Heq.
  apply iter_shift_step_injective in Heq;
    try (apply lxor_uint64; [assumption | apply byte_to_top_uint64]).
  apply byte_to_top_injective. exact (lxor_cancel_l _ _ _ Heq).
Qed.

Lemma add_all_uint64 (data : list byte) :
  forall self : CRC64WE, is_uint64 (crc_ self) -> is_uint64 (crc_ (add_all self data)).
Proof.
  induction data as [|b data IH]; intros self Hs; [exact Hs|].
  cbn. apply IH. apply add_uint64.
Qed.

Lemma add_all_injective (data : list byte) :
  forall s1 s2 : CRC64WE,
    is_uint64 (crc_ s1) -> is_uint64 (crc_ s2) ->
    crc_ (add_all s1 data) = crc_ (add_all s2 data) -> crc_ s1 = crc_ s2.
Proof.
  induction data as [|b data IH]; intros s1 s2 H1 H2 Heq; [exact Heq|].
  cbn in Heq. apply IH in Heq; try apply add_uint64.
  exact (add_injective_state s1 s2 b H1 H2 Heq).
Qed.

Lemma get_injective (s1 s2 : CRC64WE) : get s1 = get s2 -> crc_ s1 = crc_ s2.
Proof. unfold get. apply lxor_cancel_r. Qed.

Lemma fresh_uint64 : is_uint64 (crc_ fresh).
Proof. unfold is_uint64. cbn. lia. Qed.

(** X1. The register of an accumulator that holds a 64-bit value holds
    one after any number of [add] calls, and [get] returns a 64-bit
    value: the shifts never leave bits above bit 63. *)
Theorem crc64we_stays_64_bit (self : CRC64WE) (data : list byte) :
  is_uint64 (crc_ self) ->
  is_uint64 (crc_ (add_all self data)) /\ is_uint64 (get (add_all self data)).
Proof.
  intros Hs. pose proof (add_all_uint64 data self Hs) as Hd.
  split; [exact Hd|].
  unfold get. apply lxor_uint64; [exact Hd | unfold is_uint64; lia].
Qed.

Lemma crc64we_stays_64_bit_witness :
  is_uint64 (crc_ (add_all fresh check_input)) /\
  is_uint64 (get (add_all fresh check_input)).
Proof. apply (crc64we_stays_64_bit fresh check_input). exact fresh_uint64. Defined.

(** X2. A single corrupted byte is always detected: two inputs that
    differ in exactly one byte (same bytes before, same bytes after)
    have different checksums. *)
Theorem crc64we_detects_one_byte (self : CRC64WE) (before after : list byte)
    (b b' : byte) :
  is_uint64 (crc_ self) ->
  b <> b' ->
  get (add_all self (before ++ b :: after)) <>
  get (add_all self (before ++ b' :: after)).
Proof.
  intros Hs Hne Heq. apply Hne.
  apply get_injective in Heq.
  unfold add_all in Heq. rewrite !fold_left_app in Heq. cbn [fold_left] in Heq.
  fold (add_all self before) in Heq.
  pose proof (add_all_uint64 before self Hs) as Hp.
  apply (add_all_injective after) in Heq; try apply add_uint64.
  exact (add_injective_byte (add_all self before) b b' Hp Heq).
Qed.

Lemma crc64we_detects_one_byte_witness :
  get (add_all fresh ([x01; x02] ++ x03 :: [x04])%byte) <>
  get (add_all fresh ([x01; x02] ++ x83 :: [x04])%byte).
Proof.
  apply (crc64we_detects_one_byte fresh [x01; x02]%byte [x04]%byte x03 x83).
  - exact fresh_uint64.
  - discriminate.
Defined.

(** X3. Feeding the same further data never makes two checksums meet or
    part: after a common suffix two accumulators agree exactly when they
    agreed before it. *)
Theorem crc64we_suffix_preserves_difference (s1 s2 : CRC64WE) (suffix : list byte) :
  is_uint64 (crc_ s1) -> is_uint64 (crc_ s2) ->
  (get (add_all s1 suffix) = get (add_all s2 suffix) <-> get s1 = get s2).
Proof.
  intros H1 H2. split; intros Heq.
  - apply get_injective in Heq. apply add_all_injective in Heq; try assumption.
    unfold get. rewrite Heq. reflexivity.
  - apply get_injective in Heq.
    destruct s1 as [c1], s2 as [c2]. cbn in Heq. subst c2. reflexivity.
Qed.

Lemma crc64we_suffix_preserves_difference_witness :
  get (add_all (add fresh x01) [x07; x08]%byte) =
    get (add_all (add fresh x02) [x07; x08]%byte)
  <-> get (add fresh x01) = get (add fresh x02).
Proof.
  apply (crc64we_suffix_preserves_difference (add fresh x01) (add fresh x02)
           [x07; x08]%byte); apply add_uint64.
Defined.

(** X4. [add(data, len)] on a non-null pointer reads exactly [len]
    bytes: it succeeds, leaves the accumulator as [len] calls of
    [add(byte)] on them would, and what lies behind them in memory does
    not matter. *)
Theorem crc64we_add_buffer_reads_len (ndebug : bool) (self : CRC64WE)
    (data behind : list byte) :
  add_buffer ndebug self (ptr_to (data ++ behind)) (N.of_nat (List.length data))
  = Done (add_all self data).
Proof.
  cbn [add_buffer]. rewrite Nat2N.id.
  rewrite add_loop_firstn by (rewrite length_app; lia).
  rewrite firstn_app, firstn_all, Nat.sub_diag. cbn [firstn].
  rewrite app_nil_r. reflexivity.
Qed.

(** X19. With the seed of this class a byte added in front is always
    detected: whatever the data, the checksum of the data with one more
    byte before it differs from the checksum of the data. *)
Theorem crc64we_detects_leading_byte (b : byte) (data : list byte) :
  get (add_all fresh (b :: data)) <> get (add_all fresh data).
Proof.
  intros Heq. apply get_injective in Heq.
  change (add_all fresh (b :: data)) with (add_all (add fresh b) data) in Heq.
  apply add_all_injective in Heq; [| apply add_uint64 | exact fresh_uint64].
  destruct b; vm_compute in Heq; discriminate Heq.
Qed.

End CRC64WE_More.

(* ================================================================== *)
(** * Further properties of the halt path and the allocation guard *)
(* ================================================================== *)

Section Sys_More.

Import Sys Report.
Local Open Scope string_scope.

(** *** Programs whose every action is a print *)

Lemma prints_only_Ret : prints_only (Ret tt).
Proof. exists []. split; [apply returns_Ret | constructor]. Qed.

Lemma prints_only_emergencyPrint (str : string) : prints_only (emergencyPrint (Some str)).
Proof.
  exists [EmergencyPrint (Some str)]. split.
  - apply returns_perform.
  - repeat constructor. exists str. reflexivity.
Qed.

Lemma prints_only_seq (t u : itree sysE unit) :
  prints_only t -> prints_only u -> prints_only (ITree.bind t (fun _ => u)).
Proof.
  intros (tr1 & Ht & Hn1) (tr2 & Hu & Hn2).
  exists (tr1 ++ tr2)%list. split.
  - apply returns_bind with (r := tt); assumption.
  - apply Forall_app. split; assumption.
Qed.

Ltac prints_only_step :=
  lazymatch goal with
  | |- prints_only (ITree.bind _ _) => apply prints_only_seq
  | |- prints_only (emergencyPrint (Some _)) => apply prints_only_emergencyPrint
  | |- prints_only (Ret tt) => apply prints_only_Ret
  end.

Lemma print_register_only (name : string) (value : N) :
  prints_only (print_register name value).
Proof. unfold print_register. cbv zeta. repeat prints_only_step. Qed.

Lemma print_stack_only (m : machine) (ptr : N) : prints_only (print_stack m ptr).
Proof.
  unfold print_stack.
  repeat lazymatch goal with
    | |- prints_only (print_register _ _) => apply print_register_only
    | |- prints_only (ITree.bind _ _) => apply prints_only_seq
    end.
Qed.

Lemma print_registers_only (b : build) (m : machine) :
  prints_only (print_registers b m).
Proof.
  unfold print_registers, PRINT_CORE_REGISTER, PRINT_SCB_REGISTER.
  destruct (3 <=? CORTEX_M b)%N, (4 <=? CORTEX_M b)%N;
    repeat lazymatch goal with
      | |- prints_only (print_register _ _) => apply print_register_only
      | |- prints_only (print_stack _ _) => apply print_stack_only
      | |- _ => prints_only_step
      end.
Qed.

Lemma debug_breakpoint_returns (b : build) (m : machine) :
  returns (debug_breakpoint b m)
    (if debugger_attached b m then [Breakpoint] else []) tt.
Proof.
  unfold debug_breakpoint, debugger_attached.
  destruct (DEBUG_BUILD b), (CoreDebug_DHCSR_C_DEBUGEN_Msk b) as [msk|];
    try apply returns_Ret.
  destruct (negb _); [apply returns_perform | apply returns_Ret].
Qed.

(** The whole run of the hook. *)
Lemma zchSysHaltHook_shape (b : build) (m : machine) :
  exists dump : list action,
    only_prints dump /\
    (AGGRESSIVE_SIZE_OPTIMIZATION b = true -> dump = []) /\
    forall msg : option string,
      returns (zchSysHaltHook b m msg)
        ([ApplicationHaltHook; PortDisable;
          EmergencyPrint (Some (CRLF ++ "PANIC [")%string)]
           ++ prints (thread_name b m)
           ++ [EmergencyPrint (Some "] ")]
           ++ prints msg
           ++ [EmergencyPrint (Some CRLF)]
           ++ dump
           ++ (if debugger_attached b m then [Breakpoint] else []))%list
        tt.
Proof.
  assert (Hdump : exists dump,
             returns (if negb (AGGRESSIVE_SIZE_OPTIMIZATION b)
                      then print_registers b m else Ret tt) dump tt /\
             only_prints dump /\
             (AGGRESSIVE_SIZE_OPTIMIZATION b = true -> dump = [])).
  { destruct (AGGRESSIVE_SIZE_OPTIMIZATION b); cbn [negb].
    - exists []. repeat split; [apply returns_Ret | constructor].
    - destruct (print_registers_only b m) as (dump & Hret & Honly).
      exists dump. repeat split; [exact Hret | exact Honly | discriminate]. }
  destruct Hdump as (dump & Hret & Honly & Hsmall).
  exists dump. split; [exact Honly | split; [exact Hsmall|]]. intros msg.
  unfold zchSysHaltHook.
  apply returns_bind with (tr1 := [ApplicationHaltHook]) (r := tt);
    [apply returns_perform|].
  apply returns_bind with (tr1 := [PortDisable]) (r := tt);
    [apply returns_perform|].
  apply returns_bind with (tr1 := [EmergencyPrint (Some (CRLF ++ "PANIC ["))]) (r := tt);
    [apply returns_perform|].
  apply returns_bind with (r := tt); [apply returns_thread_name|].
  apply returns_bind with (r := tt); [apply returns_perform|].
  apply returns_bind with (r := tt); [apply returns_guarded_print|].
  apply returns_bind with (r := tt); [apply returns_perform|].
  apply returns_bind with (r := tt); [exact Hret|].
  apply debug_breakpoint_returns.
Qed.

Lemma only_prints_prints (s : option string) : only_prints (prints s).
Proof. destruct s as [str|]; repeat constructor. exists str. reflexivity. Qed.

(** X5. The hook calls the application's halt hook first and once, then
    disables interrupts, and only then prints; everything after is a
    call of [emergencyPrint] with a string, except that the last action
    is a breakpoint exactly when the build is a debug build with the
    debug-enable mask defined and the bit is set in DHCSR. *)
Theorem halt_hook_order (b : build) (m : machine) (msg : option string) :
  exists output : list action,
    only_prints output /\
    returns (zchSysHaltHook b m msg)
      (ApplicationHaltHook :: PortDisable :: output
         ++ (if debugger_attached b m then [Breakpoint] else []))%list
      tt.
Proof.
  destruct (zchSysHaltHook_shape b m) as (dump & Honly & _ & Hret).
  exists ([EmergencyPrint (Some (CRLF ++ "PANIC [")%string)]
            ++ prints (thread_name b m)
            ++ [EmergencyPrint (Some "] ")]
            ++ prints msg
            ++ [EmergencyPrint (Some CRLF)]
            ++ dump)%list.
  split.
  - repeat (apply Forall_app; split);
      try apply only_prints_prints; try exact Honly;
      repeat constructor; eexists; reflexivity.
  - specialize (Hret msg). cbn [app] in Hret |- *.
    repeat (rewrite <- app_assoc; cbn [app]). exact Hret.
Qed.

(** X6. In a build with [AGGRESSIVE_SIZE_OPTIMIZATION] the sink receives
    the panic line and nothing else: "\r\nPANIC [", the thread name if
    there is one, "] ", the message if it is not null, and "\r\n". *)
Theorem halt_hook_small_report (b : build) (m : machine) (msg : option string) :
  AGGRESSIVE_SIZE_OPTIMIZATION b = true ->
  exists tr,
    returns (zchSysHaltHook b m msg) tr tt /\
    sink tr = (CRLF ++ "PANIC [") ++ text (thread_name b m) ++ "] " ++ text msg ++ CRLF.
Proof.
  intros Hsmall.
  destruct (zchSysHaltHook_shape b m) as (dump & _ & Hdump & Hret).
  rewrite (Hdump Hsmall) in Hret.
  eexists. split; [apply (Hret msg)|].
  destruct (thread_name b m) as [n|], msg as [str|], (debugger_attached b m);
    reflexivity.
Qed.

Lemma halt_hook_small_report_witness :
  exists tr,
    returns (zchSysHaltHook small_build sample_machine (Some "boom")) tr tt /\
    sink tr =
      (CRLF ++ "PANIC [") ++ text (thread_name small_build sample_machine)
        ++ "] " ++ text (Some "boom") ++ CRLF.
Proof.
  apply (halt_hook_small_report small_build sample_machine (Some "boom")).
  reflexivity.
Defined.

(** *** The assertion handler *)

Lemma string_length_substring (n : nat) :
  forall s : string, String.length (substring 0 n s) = Nat.min n (String.length s).
Proof.
  induction n as [|n IH]; intros [|c s]; cbn; try reflexivity.
  rewrite IH. reflexivity.
Qed.

Lemma substring_all (n : nat) :
  forall s : string, (String.length s <= n)%nat -> substring 0 n s = s.
Proof.
  induction n as [|n IH]; intros [|c s]; cbn; intros Hlen;
    try reflexivity; try lia.
  rewrite IH by lia. reflexivity.
Qed.

(** A call followed by the halt loop does what the call does. *)
Lemma run_then_while_true {R U : Type} (f : nat) :
  forall t : itree sysE R,
    fst (run f (ITree.bind t (fun _ => @while_true U))) = fst (run f t).
Proof.
  induction f as [|f IH]; intros t; [reflexivity|].
  cbn [run]. rewrite observe_bind.
  destruct (observe t) as [r0 | t0 | X e k0].
  - pose proof (run_while_true (R := U) (S f)) as Hloop.
    cbn [run] in Hloop. rewrite Hloop. reflexivity.
  - apply IH.
  - destruct e as [a]. specialize (IH (k0 tt)).
    destruct (run f (ITree.bind (k0 tt) (fun _ => while_true))), (run f (k0 tt)).
    cbn in IH |- *. rewrite IH. reflexivity.
Qed.

Lemma run_Ret_bind {R U : Type} (f : nat) (r : R) (k : R -> itree sysE U) :
  run f (ITree.bind (Ret r) k) = run f (k r).
Proof. destruct f; [reflexivity|]. cbn [run]. rewrite observe_bind. reflexivity. Qed.

Lemma run_perform_bind {U : Type} (f : nat) (a : action) (k : unit -> itree sysE U) :
  run (S f) (ITree.bind (ITree.trigger (Perform a)) k) =
  let (tr, r) := run f (k tt) in (a :: tr, r).
Proof.
  cbn [run]. rewrite observe_bind. cbn [observe ITree.trigger _observe].
  rewrite run_Ret_bind. reflexivity.
Qed.

(** X7. The assertion handler disables interrupts and then does exactly
    what the kernel's halt does when called with the text
    file:line:func:expr (func empty when it is null) cut to the 199
    characters its static buffer holds; the text is passed whole when it
    fits. *)
Theorem assert_func_reports (halt : option string -> itree sysE unit)
    (file : string) (line : Z) (func : option string) (expr : string) :
  exists reason : string,
    (forall fuel,
        fst (run (S fuel) (__assert_func halt file line func expr)) =
        PortDisable :: fst (run fuel (halt (Some reason)))) /\
    (String.length reason <= 199)%nat /\
    prefix reason (assertion_text file line func expr) = true /\
    ((String.length (assertion_text file line func expr) <= 199)%nat ->
     reason = assertion_text file line func expr).
Proof.
  exists (chsnprintf 200 (assertion_text file line func expr)).
  split; [|split; [|split]].
  - intros fuel.
    change (__assert_func halt file line func expr)
      with (ITree.bind port_disable
              (fun _ =>
                 ITree.bind
                   (halt (Some (chsnprintf 200 (assertion_text file line func expr))))
                   (fun _ => @while_true unit))).
    unfold port_disable. rewrite run_perform_bind.
    pose proof (run_then_while_true (U := unit) fuel
                  (halt (Some (chsnprintf 200 (assertion_text file line func expr)))))
      as Hrun.
    destruct (run fuel (ITree.bind _ _)) as [tr r]. cbn [fst] in Hrun |- *.
    rewrite Hrun. reflexivity.
  - unfold chsnprintf. rewrite string_length_substring. exact (Nat.le_min_l 199 _).
  - unfold chsnprintf. cbn [Nat.sub].
    generalize (assertion_text file line func expr). generalize 199%nat.
    induction n as [|n IH]; intros [|c s]; cbn; try reflexivity.
    destruct (ascii_dec c c) as [_|Hne]; [apply IH | contradiction].
  - intros Hfit. unfold chsnprintf. apply substring_all. cbn. exact Hfit.
Qed.

Lemma assert_func_reports_witness :
  exists reason : string,
    (forall fuel,
        fst (run (S fuel)
               (__assert_func (chSysHalt debug_build sample_machine)
                  "sys.cpp" 235 (Some "malloc") "sz == 0")) =
        PortDisable :: fst (run fuel (chSysHalt debug_build sample_machine (Some reason)))) /\
    reason = "sys.cpp:235:malloc:sz == 0".
Proof.
  destruct (assert_func_reports (chSysHalt debug_build sample_machine)
              "sys.cpp" 235 (Some "malloc") "sz == 0")
    as (reason & Hrun & _ & _ & Hfit).
  exists reason. split; [exact Hrun|].
  apply Hfit. vm_compute. lia.
Defined.

(** X8. In a build without assertions the three allocation functions
    perform no action and return null whatever the size asked for. *)
Theorem allocation_guard_release (halt : option string -> itree sysE unit)
    (b : build) (p num sz : N) :
  NDEBUG b = true ->
  returns (malloc halt b sz) [] null /\
  returns (calloc halt b num sz) [] null /\
  returns (realloc halt b p sz) [] null.
Proof.
  intros Hb. unfold malloc, calloc, realloc, assert. rewrite Hb.
  repeat split; exists 1%nat; reflexivity.
Qed.

Lemma allocation_guard_release_witness :
  returns (malloc (chSysHalt small_build sample_machine) small_build 64) [] null /\
  returns (calloc (chSysHalt small_build sample_machine) small_build 16 64) [] null /\
  returns (realloc (chSysHalt small_build sample_machine) small_build 536870912 64) [] null.
Proof.
  apply (allocation_guard_release (chSysHalt small_build sample_machine) small_build
           536870912 16 64).
  reflexivity.
Defined.

End Sys_More.

(* ================================================================== *)
(** * The hexadecimal text of a register *)
(* ================================================================== *)

Section Hex_Facts.

Import Sys Report.
Local Open Scope N_scope.





















End Hex_Facts.

(* ================================================================== *)
(** * Properties of sleeping and of the reboot request *)
(* ================================================================== *)

Section Sched_Facts.

Import Bootloader Sys Sched.
Local Open Scope Z_scope.

Lemma systime_modulus (t : timer) :
  0 < CH_CFG_ST_RESOLUTION t ->
  2 ^ CH_CFG_ST_RESOLUTION t = 2 * 2 ^ (CH_CFG_ST_RESOLUTION t - 1) /\
  0 < 2 ^ (CH_CFG_ST_RESOLUTION t - 1).
Proof.
  intros Hw. split.
  - rewrite <- Z.pow_succ_r by lia. f_equal. lia.
  - apply Z.pow_pos_nonneg; lia.
Qed.

(** The time left, computed in [systime_t], does not depend on where the
    counter wrapped. *)
Lemma to_systime_difference (t : timer) (x now : Z) :
  to_systime t (to_systime t x - now) = to_systime t (x - now).
Proof. unfold to_systime. apply Zminus_mod_idemp_l. Qed.

(** Reading a [systime_t] as signed gives back a distance of less than
    half the range of the counter. *)
Lemma to_signed_systime_distance (t : timer) (a : Z) :
  0 < CH_CFG_ST_RESOLUTION t ->
  - 2 ^ (CH_CFG_ST_RESOLUTION t - 1) <= a < 2 ^ (CH_CFG_ST_RESOLUTION t - 1) ->
  to_signed_systime t (to_systime t a) = a.
Proof.
  intros Hw Ha. destruct (systime_modulus t Hw) as [Hmod Hpos].
  unfold to_signed_systime, to_systime.
  destruct (Z_lt_le_dec a 0) as [Hneg | Hnonneg].
  - replace (a mod 2 ^ CH_CFG_ST_RESOLUTION t) with (a + 2 ^ CH_CFG_ST_RESOLUTION t).
    + replace (a + 2 ^ CH_CFG_ST_RESOLUTION t <? 2 ^ (CH_CFG_ST_RESOLUTION t - 1))
        with false by (symmetry; apply Z.ltb_ge; lia).
      lia.
    + apply Z.mod_unique with (q := -1); [left; lia | lia].
  - rewrite Z.mod_small by lia.
    replace (a <? 2 ^ (CH_CFG_ST_RESOLUTION t - 1)) with true
      by (symmetry; apply Z.ltb_lt; lia).
    reflexivity.
Qed.


(** X11. A deadline [d] ticks ahead of the current time, with [d] less
    than half the range of the tick counter, makes [sleepUntilChTime]
    sleep exactly [d] ticks, with the system locked, wherever the
    counter wraps between now and the deadline; nothing is logged. *)
Theorem sleep_until_future (b : build) (t : timer) (m : machine) (now d : Z) :
  0 < CH_CFG_ST_RESOLUTION t ->
  0 < d < 2 ^ (CH_CFG_ST_RESOLUTION t - 1) ->
  sleepUntilChTime b t m now (to_systime t (now + d))
  = Done [ChSysLock; ChThdSleepS d; ChSysUnlock].
Proof.
  intros Hw Hd. destruct (systime_modulus t Hw) as [Hmod Hpos].
  unfold sleepUntilChTime. cbv zeta.
  rewrite to_systime_difference. replace (now + d - now) with d by lia.
  rewrite to_signed_systime_distance by lia.
  replace (to_systime t d) with d by (unfold to_systime; rewrite Z.mod_small; lia).
  replace (0 <? d) with true by (symmetry; apply Z.ltb_lt; lia).
  replace (d <? 0) with false by (symmetry; apply Z.ltb_ge; lia).
  destruct (DEBUG_BUILD b); reflexivity.
Qed.

Lemma sleep_until_future_witness :
  sleepUntilChTime debug_build
    {| CH_CFG_ST_FREQUENCY := 1000; CH_CFG_ST_RESOLUTION := 16 |}
    sample_machine 65530
    (to_systime {| CH_CFG_ST_FREQUENCY := 1000; CH_CFG_ST_RESOLUTION := 16 |}
       (65530 + 10))
  = Done [ChSysLock; ChThdSleepS 10; ChSysUnlock].
Proof.
  apply (sleep_until_future debug_build
           {| CH_CFG_ST_FREQUENCY := 1000; CH_CFG_ST_RESOLUTION := 16 |}
           sample_machine 65530 10); cbn; lia.
Defined.

(** X12. A deadline that is now, or up to half the range of the counter
    in the past, never makes [sleepUntilChTime] sleep; outside debug
    builds, and in any build when the deadline is now, it only locks and
    unlocks. *)
Theorem sleep_until_past (b : build) (t : timer) (m : machine) (now d : Z)
    (tr : list sched_action) :
  0 < CH_CFG_ST_RESOLUTION t ->
  0 <= d <= 2 ^ (CH_CFG_ST_RESOLUTION t - 1) ->
  sleepUntilChTime b t m now (to_systime t (now - d)) = Done tr ->
  slept tr = [] /\
  (DEBUG_BUILD b = false \/ d = 0 -> tr = [ChSysLock; ChSysUnlock]).
Proof.
  intros Hw Hd. destruct (systime_modulus t Hw) as [Hmod Hpos].
  unfold sleepUntilChTime. cbv zeta.
  rewrite to_systime_difference. replace (now - d - now) with (- d) by lia.
  rewrite to_signed_systime_distance by lia.
  replace (0 <? - d) with false by (symmetry; apply Z.ltb_ge; lia).
  cbn [app].
  destruct (DEBUG_BUILD b).
  - destruct (- d <? 0) eqn:Hlag.
    + apply Z.ltb_lt in Hlag.
      destruct (CH_CFG_USE_REGISTRY b); [destruct (chThdGetSelfX m)|];
        intros Heq; inversion Heq; subst; (split; [reflexivity|]);
        intros [Hdbg | Hzero]; (discriminate || lia).
    + intros Heq. inversion Heq. split; reflexivity.
  - intros Heq. inversion Heq. split; reflexivity.
Qed.

Lemma sleep_until_past_witness :
  slept [ChSysLock; ChSysUnlock] = [] /\
  (DEBUG_BUILD small_build = false \/ 7 = 0 ->
   [ChSysLock; ChSysUnlock] = [ChSysLock; ChSysUnlock]).
Proof.
  apply (sleep_until_past small_build
           {| CH_CFG_ST_FREQUENCY := 1000; CH_CFG_ST_RESOLUTION := 16 |}
           sample_machine 3 7 [ChSysLock; ChSysUnlock]).
  - cbn. lia.
  - cbn. lia.
  - reflexivity.
Defined.





(** *** usleep and sleep *)

Lemma wrap64_small (x : Z) : 0 <= x < 2 ^ 64 -> wrap64 x = x.
Proof. intros Hx. rewrite wrap64_mod. apply Z.mod_small. exact Hx. Qed.

Lemma one_shl64 (n : Z) : 0 <= n < 64 -> shl64 1 n = 2 ^ n.
Proof.
  intros Hn. unfold shl64. rewrite Z.shiftl_mul_pow2, Z.mul_1_l by lia.
  apply wrap64_small. split.
  - apply Z.pow_nonneg. lia.
  - apply Z.pow_lt_mono_r; lia.
Qed.

(** For 32-bit arguments the 64-bit arithmetic of the two checks does
    not wrap. *)
Lemma usleep_fits_exact (t : timer) (useconds : Z) :
  is_uint32 useconds -> is_uint32 (CH_CFG_ST_FREQUENCY t) ->
  0 <= CH_CFG_ST_RESOLUTION t < 64 ->
  usleep_fits t useconds =
  ((useconds * CH_CFG_ST_FREQUENCY t + 999999) / 1000000 <? 2 ^ CH_CFG_ST_RESOLUTION t).
Proof.
  unfold is_uint32, usleep_fits. intros Hu Hf Hr.
  rewrite one_shl64 by assumption.
  rewrite (wrap64_small useconds), (wrap64_small (CH_CFG_ST_FREQUENCY t)) by lia.
  assert (Hprod : 0 <= useconds * CH_CFG_ST_FREQUENCY t <= (2 ^ 32 - 1) * (2 ^ 32 - 1))
    by nia.
  rewrite (wrap64_small (useconds * CH_CFG_ST_FREQUENCY t)) by lia.
  rewrite wrap64_small by lia.
  reflexivity.
Qed.

Lemma sleep_fits_exact (t : timer) (seconds : Z) :
  is_uint32 seconds -> is_uint32 (CH_CFG_ST_FREQUENCY t) ->
  0 <= CH_CFG_ST_RESOLUTION t < 64 ->
  sleep_fits t seconds =
  (seconds * CH_CFG_ST_FREQUENCY t <? 2 ^ CH_CFG_ST_RESOLUTION t).
Proof.
  unfold is_uint32, sleep_fits. intros Hu Hf Hr.
  rewrite one_shl64 by assumption.
  rewrite (wrap64_small seconds), (wrap64_small (CH_CFG_ST_FREQUENCY t)) by lia.
  assert (Hprod : 0 <= seconds * CH_CFG_ST_FREQUENCY t <= (2 ^ 32 - 1) * (2 ^ 32 - 1))
    by nia.
  rewrite wrap64_small by lia.
  reflexivity.
Qed.

(** X15. In a build with assertions, [usleep] of a 32-bit number of
    microseconds, with a 32-bit tick frequency, goes through exactly
    when the delay rounded up to ticks is below 2 to the timer
    resolution, and fails its assertion otherwise: the 64-bit arithmetic
    of the check does not wrap.  When it goes through it returns 0 and
    sleeps once, unless the delay is 0. *)
Theorem usleep_guard (b : build) (t : timer) (useconds : Z) :
  NDEBUG b = false ->
  is_uint32 useconds -> is_uint32 (CH_CFG_ST_FREQUENCY t) ->
  0 <= CH_CFG_ST_RESOLUTION t < 64 ->
  ((useconds * CH_CFG_ST_FREQUENCY t + 999999) / 1000000 < 2 ^ CH_CFG_ST_RESOLUTION t ->
   usleep b t useconds =
   Done (if 0 <? useconds then [ChThdSleepMicroseconds useconds] else [], 0)) /\
  (2 ^ CH_CFG_ST_RESOLUTION t <= (useconds * CH_CFG_ST_FREQUENCY t + 999999) / 1000000 ->
   exists expr, usleep b t useconds = AssertionFailed expr).
Proof.
  intros Hb Hu Hf Hr. unfold usleep.
  rewrite Hb, usleep_fits_exact by assumption. cbn [negb andb].
  split; intros Hfit.
  - apply Z.ltb_lt in Hfit. rewrite Hfit. reflexivity.
  - apply Z.ltb_ge in Hfit. rewrite Hfit. eexists. reflexivity.
Qed.

Lemma usleep_guard_witness :
  usleep debug_build {| CH_CFG_ST_FREQUENCY := 1000; CH_CFG_ST_RESOLUTION := 16 |} 2500
  = Done ([ChThdSleepMicroseconds 2500], 0) /\
  exists expr,
    usleep debug_build {| CH_CFG_ST_FREQUENCY := 1000; CH_CFG_ST_RESOLUTION := 16 |}
      70000000
    = AssertionFailed expr.
Proof.
  split.
  - apply (proj1 (usleep_guard debug_build
                    {| CH_CFG_ST_FREQUENCY := 1000; CH_CFG_ST_RESOLUTION := 16 |} 2500
                    eq_refl
                    ltac:(unfold is_uint32; lia)
                    ltac:(unfold is_uint32; cbn; lia)
                    ltac:(cbn; lia))).
    reflexivity.
  - apply (proj2 (usleep_guard debug_build
                    {| CH_CFG_ST_FREQUENCY := 1000; CH_CFG_ST_RESOLUTION := 16 |} 70000000
                    eq_refl
                    ltac:(unfold is_uint32; lia)
                    ltac:(unfold is_uint32; cbn; lia)
                    ltac:(cbn; lia))).
    cbn. discriminate.
Defined.

(** X16. In a build with assertions, [sleep] of a 32-bit number of
    seconds, with a 32-bit tick frequency, goes through exactly when the
    delay in ticks is below 2 to the timer resolution, and fails its
    assertion otherwise.  When it goes through it returns 0 and sleeps
    once, unless the delay is 0. *)
Theorem sleep_guard (b : build) (t : timer) (seconds : Z) :
  NDEBUG b = false ->
  is_uint32 seconds -> is_uint32 (CH_CFG_ST_FREQUENCY t) ->
  0 <= CH_CFG_ST_RESOLUTION t < 64 ->
  (seconds * CH_CFG_ST_FREQUENCY t < 2 ^ CH_CFG_ST_RESOLUTION t ->
   sleep b t seconds =
   Done (if 0 <? seconds then [ChThdSleepSeconds seconds] else [], 0)) /\
  (2 ^ CH_CFG_ST_RESOLUTION t <= seconds * CH_CFG_ST_FREQUENCY t ->
   exists expr, sleep b t seconds = AssertionFailed expr).
Proof.
  intros Hb Hu Hf Hr. unfold sleep.
  rewrite Hb, sleep_fits_exact by assumption. cbn [negb andb].
  split; intros Hfit.
  - apply Z.ltb_lt in Hfit. rewrite Hfit. reflexivity.
  - apply Z.ltb_ge in Hfit. rewrite Hfit. eexists. reflexivity.
Qed.

Lemma sleep_guard_witness :
  sleep debug_build {| CH_CFG_ST_FREQUENCY := 1000; CH_CFG_ST_RESOLUTION := 16 |} 60
  = Done ([ChThdSleepSeconds 60], 0) /\
  exists expr,
    sleep debug_build {| CH_CFG_ST_FREQUENCY := 1000; CH_CFG_ST_RESOLUTION := 16 |} 66
    = AssertionFailed expr.
Proof.
  split.
  - apply (proj1 (sleep_guard debug_build
                    {| CH_CFG_ST_FREQUENCY := 1000; CH_CFG_ST_RESOLUTION := 16 |} 60
                    eq_refl
                    ltac:(unfold is_uint32; lia)
                    ltac:(unfold is_uint32; cbn; lia)
                    ltac:(cbn; lia))).
    reflexivity.
  - apply (proj2 (sleep_guard debug_build
                    {| CH_CFG_ST_FREQUENCY := 1000; CH_CFG_ST_RESOLUTION := 16 |} 66
                    eq_refl
                    ltac:(unfold is_uint32; lia)
                    ltac:(unfold is_uint32; cbn; lia)
                    ltac:(cbn; lia))).
    cbn. discriminate.
Defined.

(** X17. A delay of zero is never an error and never a call to the
    kernel: [usleep(0)] and [sleep(0)] return 0 without sleeping, in
    every build and whatever the tick frequency. *)
Theorem zero_delay_returns (b : build) (t : timer) :
  0 <= CH_CFG_ST_RESOLUTION t < 64 ->
  usleep b t 0 = Done ([], 0) /\ sleep b t 0 = Done ([], 0).
Proof.
  intros Hr.
  assert (Hpos : 0 < 2 ^ CH_CFG_ST_RESOLUTION t) by (apply Z.pow_pos_nonneg; lia).
  unfold usleep, sleep, usleep_fits, sleep_fits.
  rewrite one_shl64 by assumption.
  change (wrap64 0) with 0. rewrite Z.mul_0_l.
  change (wrap64 0) with 0. change (wrap64 (0 + 999999) / 1000000) with 0.
  replace (0 <? 2 ^ CH_CFG_ST_RESOLUTION t) with true
    by (symmetry; apply Z.ltb_lt; exact Hpos).
  cbn [negb]. rewrite andb_false_r. split; reflexivity.
Qed.

Lemma zero_delay_returns_witness :
  usleep debug_build {| CH_CFG_ST_FREQUENCY := 1000; CH_CFG_ST_RESOLUTION := 32 |} 0
    = Done ([], 0) /\
  sleep debug_build {| CH_CFG_ST_FREQUENCY := 1000; CH_CFG_ST_RESOLUTION := 32 |} 0
    = Done ([], 0).
Proof.
  apply (zero_delay_returns debug_build
           {| CH_CFG_ST_FREQUENCY := 1000; CH_CFG_ST_RESOLUTION := 32 |}).
  cbn. lia.
Defined.

(** *** The reboot request *)

Lemma reboot_calls_requested (cs : list reboot_call) :
  forall g : globals,
    isRebootRequested g = true ->
    isRebootRequested (fst (reboot_calls g cs)) = true /\
    exists j, snd (reboot_calls g cs) = repeat true j.
Proof.
  induction cs as [|c cs IH]; intros g Hg.
  - split; [exact Hg | exists 0%nat; reflexivity].
  - destruct c; cbn [reboot_calls].
    + apply IH. reflexivity.
    + destruct (IH g Hg) as [Hflag [j Hans]].
      destruct (reboot_calls g cs) as [g' answers]. cbn [fst snd] in *.
      split; [exact Hflag|]. exists (S j). rewrite Hg, Hans. reflexivity.
Qed.

(** X18. The reboot request is a latch.  After any sequence of calls the
    request is pending exactly when it was pending before or the
    sequence contains a [requestReboot]; and the answers of
    [isRebootRequested] never go back from true to false. *)
Theorem reboot_request_latches (g : globals) (cs : list reboot_call) :
  (isRebootRequested (fst (reboot_calls g cs)) = true <->
   isRebootRequested g = true \/ In call_requestReboot cs) /\
  exists k j, snd (reboot_calls g cs) = (repeat false k ++ repeat true j)%list.
Proof.
  revert g. induction cs as [|c cs IH]; intros g.
  - split.
    + cbn. split; [intros H; left; exact H | intros [H | []]; exact H].
    + exists 0%nat, 0%nat. reflexivity.
  - destruct c; cbn [reboot_calls].
    + destruct (reboot_calls_requested cs (requestReboot g) eq_refl) as [Hflag [j Hans]].
      split.
      * split; [intros _; right; left; reflexivity | intros _; exact Hflag].
      * exists 0%nat, j. exact Hans.
    + destruct (IH g) as [Hiff [k [j Hans]]].
      destruct (reboot_calls g cs) as [g' answers] eqn:Hrun. cbn [fst snd] in *.
      split.
      * rewrite Hiff. split; intros [H | H]; auto.
        -- right. right. exact H.
        -- destruct H as [H | H]; [discriminate | right; exact H].
      * destruct (isRebootRequested g) eqn:Hg.
        -- destruct (reboot_calls_requested cs g Hg) as [_ [j' Hans']].
           rewrite Hrun in Hans'. cbn [snd] in Hans'.
           exists 0%nat, (S j'). rewrite Hans'. reflexivity.
        -- exists (S k), j. rewrite Hans. reflexivity.
Qed.

Lemma reboot_request_latches_witness :
  isRebootRequested
    (fst (reboot_calls startup
            [call_isRebootRequested; call_requestReboot; call_isRebootRequested]))
  = true.
Proof.
  destruct (reboot_request_latches startup
              [call_isRebootRequested; call_requestReboot; call_isRebootRequested])
    as [Hiff _].
  apply Hiff. right. right. left. reflexivity.
Defined.

End Sched_Facts.
